(** * fill_latent.py: the latent-path transformer and the column filler

    A shallow embedding of [src/fill_latent.py] and the properties of its
    two components: [make_latent_path] (a regular-expression suffix swap)
    and [fill_latent] (a mask-and-fill update of one data-frame column),
    together with the command-line driver [main]. *)

From Stdlib Require Import String Ascii List NArith Bool Arith Lia.
Import ListNotations.

Set Implicit Arguments.

(* ===================================================================== *)
(** ** Python strings *)
(* ===================================================================== *)

(** A Python [str] is a sequence of Unicode code points. *)
Definition pystr := list N.

Definition chr (a : ascii) : N := N_of_ascii a.

(** [str "abc"] is the Python literal ["abc"] (code points below 256). *)
Definition str (s : string) : pystr := map chr (list_ascii_of_string s).

(** The line feed, written ["\n"] in Python. *)
Definition LF : N := 10%N.

Definition pystr_eqb (a b : pystr) : bool :=
  if list_eq_dec N.eq_dec a b then true else false.

Module Unicode.

(** [sre_lower_unicode], the simple lower-case mapping used by the [re]
    engine.  The table is written out for the code points whose image is
    an ASCII letter (the ASCII capitals, U+0130 and the Kelvin sign
    U+212A); every other code point is left as it is.  No code point but
    U+0131 itself is mapped to U+0131, so every comparison of a
    lower-cased character with an ASCII letter or with U+0131 has the
    value it has with the full table. *)
Definition tolower (c : N) : N :=
  if ((65 <=? c) && (c <=? 90))%N then (c + 32)%N
  else if (c =? 304)%N then 105%N
  else if (c =? 8490)%N then 107%N
  else c.

(** [_ignorecase_fixes] of the [re] compiler: the other lower-case code
    points that share their upper case with a given lower-case code
    point.  Only the two ASCII entries are listed: [i] with the dotless
    i (U+0131) and [s] with the long s (U+017F). *)
Definition ignorecase_fixes (lo : N) : list N :=
  if (lo =? 105)%N then [305%N]
  else if (lo =? 115)%N then [383%N]
  else [].

(** [Py_UNICODE_ISSPACE]: the characters removed by [str.strip()]. *)
Definition isspace (c : N) : bool :=
  (((9 <=? c) && (c <=? 13)) || ((28 <=? c) && (c <=? 32))
   || (c =? 133) || (c =? 160) || (c =? 5760)
   || ((8192 <=? c) && (c <=? 8202))
   || (c =? 8232) || (c =? 8233) || (c =? 8239) || (c =? 8287)
   || (c =? 12288))%N.

End Unicode.

(** [str.strip()] with no argument: leading and trailing white space is
    removed. *)
Fixpoint lstrip (s : pystr) : pystr :=
  match s with
  | c :: s' => if Unicode.isspace c then lstrip s' else s
  | [] => []
  end.

Definition rstrip (s : pystr) : pystr := rev (lstrip (rev s)).

Definition strip (s : pystr) : pystr := rstrip (lstrip s).

(* ===================================================================== *)
(** ** The part of the [re] module the program uses *)
(* ===================================================================== *)

Module Re.

(** Parsed patterns: literals, concatenation, the greedy optional group
    [(?:r)?] and the anchor [$]. *)
Inductive regex : Type :=
| Lit (c : N)
| Cat (r1 r2 : regex)
| Opt (r : regex)
| AtEnd.

Record pattern : Type := compile {
  ast : regex;
  IGNORECASE : bool
}.

(** One literal against one character.  Under [IGNORECASE] (on a [str]
    pattern, so with Unicode rules) the character is lower-cased and
    looked up among the lower-cased literal and its fixes. *)
Definition char_match (ignorecase : bool) (lit ch : N) : bool :=
  if ignorecase then
    let lo := Unicode.tolower lit in
    existsb (N.eqb (Unicode.tolower ch)) (lo :: Unicode.ignorecase_fixes lo)
  else (ch =? lit)%N.

(** [$] without [MULTILINE]: at the end of the string, or just before a
    line feed that is the last character. *)
Definition at_end (s : pystr) : bool :=
  match s with
  | [] => true
  | [c] => (c =? LF)%N
  | _ => false
  end.

(** The backtracking matcher, in continuation-passing style: [k] is what
    remains to be matched after [r]; the result is the text left after
    the whole match.  The optional group is greedy: it is tried first and
    skipped only when the rest cannot be matched after it. *)
Fixpoint run (ic : bool) (r : regex) (k : pystr -> option pystr)
         (s : pystr) : option pystr :=
  match r with
  | Lit c =>
      match s with
      | ch :: s' => if char_match ic c ch then k s' else None
      | [] => None
      end
  | Cat r1 r2 => run ic r1 (run ic r2 k) s
  | Opt r1 =>
      match run ic r1 k s with
      | Some rest => Some rest
      | None => k s
      end
  | AtEnd => if at_end s then k s else None
  end.

(** A match anchored at the first character of [s]. *)
Definition match_here (p : pattern) (s : pystr) : option pystr :=
  run (IGNORECASE p) (ast p) (@Some pystr) s.

(** [p.search(s)]: the span of the leftmost match, if any. *)
Fixpoint search_from (p : pattern) (pos : nat) (s : pystr)
  : option (nat * nat) :=
  match match_here p s with
  | Some rest => Some (pos, pos + (length s - length rest))
  | None =>
      match s with
      | [] => None
      | _ :: s' => search_from p (S pos) s'
      end
  end.

Definition search (p : pattern) (s : pystr) : option (nat * nat) :=
  search_from p 0 s.

(** [p.sub(repl, s)] for a replacement without back-references: every
    non-overlapping match, from the left, is replaced; the text between
    matches is copied.  [fuel] bounds the number of steps of the scan;
    each step either copies one character or jumps over a match. *)
Fixpoint sub_loop (p : pattern) (repl : pystr) (fuel : nat) (s : pystr)
  : pystr :=
  match fuel with
  | O => s
  | S fuel' =>
      match match_here p s with
      | Some rest =>
          if length rest <? length s
          then repl ++ sub_loop p repl fuel' rest
          else (* an empty match: replaced, then one character copied *)
            match s with
            | [] => repl
            | c :: s' => repl ++ c :: sub_loop p repl fuel' s'
            end
      | None =>
          match s with
          | [] => []
          | c :: s' => c :: sub_loop p repl fuel' s'
          end
      end
  end.

Definition sub (p : pattern) (repl s : pystr) : pystr :=
  sub_loop p repl (S (length s)) s.

End Re.

(* ===================================================================== *)
(** ** Exceptions *)
(* ===================================================================== *)

Inductive exn : Type :=
| ValueError (img_path : pystr)   (* "Unrecognised image extension: ..." *)
| TypeError                       (* a non-string handed to the [re] module *)
| KeyError (column : pystr)
| FileNotFoundError (path : pystr)
| SystemExit (message : pystr)
| OSError (path : pystr)          (* a file that cannot be written *)
| UnicodeEncodeError (text : pystr). (* a text the output cannot encode *)

Inductive result (A : Type) : Type :=
| Ok (a : A)
| Raise (e : exn).
Arguments Ok {A} a.
Arguments Raise {A} e.

(* ===================================================================== *)
(** ** The path transformer *)
(* ===================================================================== *)

(** [_RE_EXT = re.compile(r"\.nii(?:\.gz)?$", re.IGNORECASE)] *)
Definition _RE_EXT : Re.pattern :=
  Re.compile
    (Re.Cat (Re.Lit (chr "."))
    (Re.Cat (Re.Lit (chr "n"))
    (Re.Cat (Re.Lit (chr "i"))
    (Re.Cat (Re.Lit (chr "i"))
    (Re.Cat (Re.Opt (Re.Cat (Re.Lit (chr "."))
                    (Re.Cat (Re.Lit (chr "g")) (Re.Lit (chr "z")))))
            Re.AtEnd)))))
    true.

Definition latent_suffix : pystr := str "_latent.npz".

Definition make_latent_path (img_path : pystr) : result pystr :=
  match Re.search _RE_EXT img_path with
  | None => Raise (ValueError img_path)
  | Some _ => Ok (Re.sub _RE_EXT latent_suffix img_path)
  end.

(* ===================================================================== *)
(** ** The part of pandas the program uses *)
(* ===================================================================== *)

(** A cell of a frame read with [dtype=str]: the float [nan] of an empty
    field, the [pd.NA] singleton, or a string. *)
Inductive cell : Type :=
| NaN
| NA
| Str (s : pystr).

Module Pd.

(** A [Series]: values with their row labels.  Frames carry the default
    [RangeIndex], so the label of a row is its position. *)
Definition Series := list (nat * cell).

(** A [DataFrame], column-wise: the length of the index and the columns
    in their order, each with its name. *)
Record DataFrame : Type := mkDataFrame {
  nrows : nat;
  data : list (pystr * list cell)
}.

Definition columns (df : DataFrame) : list pystr := map fst (data df).

Fixpoint distinct (names : list pystr) : bool :=
  match names with
  | [] => true
  | n :: names' => negb (existsb (pystr_eqb n) names') && distinct names'
  end.

(** Column labels are distinct and every column has one value per row. *)
Definition wf (df : DataFrame) : Prop :=
  distinct (columns df) = true /\
  forallb (fun c => length (snd c) =? nrows df) (data df) = true.

Fixpoint lookup_col (name : pystr) (cols : list (pystr * list cell))
  : option (list cell) :=
  match cols with
  | [] => None
  | (n, v) :: cols' => if pystr_eqb name n then Some v else lookup_col name cols'
  end.

Fixpoint replace_col (name : pystr) (v : list cell)
         (cols : list (pystr * list cell)) : list (pystr * list cell) :=
  match cols with
  | [] => []
  | (n, w) :: cols' =>
      if pystr_eqb name n then (n, v) :: cols'
      else (n, w) :: replace_col name v cols'
  end.

(** [df[name]] as a plain function of the frame. *)
Definition column (name : pystr) (df : DataFrame) : option (list cell) :=
  lookup_col name (data df).

(** [Series.isna()] *)
Definition isna (c : cell) : bool :=
  match c with
  | NaN | NA => true
  | Str _ => false
  end.

(** [Series.astype(str)]: [str(x)] of every value. *)
Definition astype_str (c : cell) : pystr :=
  match c with
  | NaN => str "nan"
  | NA => str "<NA>"
  | Str s => s
  end.

Fixpoint zip_with {A B C : Type} (f : A -> B -> C) (l : list A) (l' : list B)
  : list C :=
  match l, l' with
  | a :: l, b :: l' => f a b :: zip_with f l l'
  | _, _ => []
  end.

(** [col.loc[mask]]: the rows whose mask is [True], with their labels. *)
Fixpoint select (mask : list bool) (pos : nat) (col : list cell) : Series :=
  match mask, col with
  | b :: mask', c :: col' =>
      if b then (pos, c) :: select mask' (S pos) col'
      else select mask' (S pos) col'
  | _, _ => []
  end.

(** [Series.apply(f)]: [f] on every value in row order; the first
    exception ends the call. *)
Fixpoint apply (f : cell -> result cell) (s : Series) : result Series :=
  match s with
  | [] => Ok []
  | (i, v) :: s' =>
      match f v with
      | Raise e => Raise e
      | Ok v' =>
          match apply f s' with
          | Raise e => Raise e
          | Ok r => Ok ((i, v') :: r)
          end
      end
  end.

Fixpoint at_label (i : nat) (s : Series) : option cell :=
  match s with
  | [] => None
  | (j, v) :: s' => if Nat.eqb i j then Some v else at_label i s'
  end.

(** The column after [col.loc[mask] = new]: the assignment aligns [new]
    on the row labels; a selected row without a value in [new] gets
    [nan]. *)
Fixpoint assign (mask : list bool) (pos : nat) (col : list cell)
         (new : Series) : list cell :=
  match mask, col with
  | b :: mask', c :: col' =>
      (if b then match at_label pos new with Some v => v | None => NaN end
       else c) :: assign mask' (S pos) col' new
  | _, _ => col
  end.

End Pd.

Import Pd.

(* ===================================================================== *)
(** ** Computations on the frame passed by reference *)
(* ===================================================================== *)

(** [fill_latent] mutates its argument in place and may raise: a
    computation takes the frame, and gives a value or an exception
    together with the frame as it is left. *)
Definition M (A : Type) : Type := DataFrame -> result A * DataFrame.

Definition ret {A : Type} (a : A) : M A := fun df => (Ok a, df).

Definition bind {A B : Type} (m : M A) (f : A -> M B) : M B :=
  fun df =>
    match m df with
    | (Ok a, df') => f a df'
    | (Raise e, df') => (Raise e, df')
    end.

Definition lift {A : Type} (r : result A) : M A := fun df => (r, df).

Notation "x <- m ;; k" := (bind m (fun x => k))
  (at level 61, m at next level, right associativity).
Notation "m ;;; k" := (bind m (fun _ => k))
  (at level 61, right associativity).

(** ["name" in df.columns] *)
Definition contains (name : pystr) : M bool :=
  fun df => (Ok (existsb (pystr_eqb name) (columns df)), df).

(** [df[name]] *)
Definition getitem (name : pystr) : M (list cell) :=
  fun df =>
    match column name df with
    | Some v => (Ok v, df)
    | None => (Raise (KeyError name), df)
    end.

(** [df[name] = scalar]: the column is overwritten, or appended as the
    last one, with the scalar in every row. *)
Definition setitem_scalar (name : pystr) (v : cell) : M unit :=
  fun df =>
    let col := repeat v (nrows df) in
    (Ok tt,
     if existsb (pystr_eqb name) (columns df)
     then mkDataFrame (nrows df) (replace_col name col (data df))
     else mkDataFrame (nrows df) (data df ++ [(name, col)])).

(** [df.loc[mask, name]] *)
Definition loc_getitem (mask : list bool) (name : pystr) : M Series :=
  fun df =>
    match column name df with
    | Some v => (Ok (select mask 0 v), df)
    | None => (Raise (KeyError name), df)
    end.

(** [df.loc[mask, name] = new] on an existing column *)
Definition loc_setitem (mask : list bool) (name : pystr) (new : Series)
  : M unit :=
  fun df =>
    match column name df with
    | Some v =>
        (Ok tt,
         mkDataFrame (nrows df) (replace_col name (assign mask 0 v new) (data df)))
    | None => (Raise (KeyError name), df)
    end.

(* ===================================================================== *)
(** ** The column filler *)
(* ===================================================================== *)

Definition image_path : pystr := str "image_path".
Definition latent_path : pystr := str "latent_path".

(** [make_latent_path] as [Series.apply] calls it: on whatever the cell
    holds.  [_RE_EXT.search] raises [TypeError] on a value that is not a
    string. *)
Definition call_make_latent_path (v : cell) : result cell :=
  match v with
  | Str s =>
      match make_latent_path s with
      | Ok r => Ok (Str r)
      | Raise e => Raise e
      end
  | NaN | NA => Raise TypeError
  end.

Definition fill_latent : M unit :=
  present <- contains latent_path ;;
  (if negb present then setitem_scalar latent_path NA else ret tt) ;;;
  latent <- getitem latent_path ;;
  latent' <- getitem latent_path ;;
  let mask_missing :=
    zip_with orb
      (map isna latent)
      (map (fun s => pystr_eqb (strip s) (str "")) (map astype_str latent')) in
  images <- loc_getitem mask_missing image_path ;;
  new <- lift (apply call_make_latent_path images) ;;
  loc_setitem mask_missing latent_path new.

(* ===================================================================== *)
(** ** The command-line driver *)
(* ===================================================================== *)

(** What [parse_args] returns: [--in] is required, [--out] is [None] when
    the flag is not given. *)
Record Namespace : Type := mkNamespace {
  inp : pystr;
  out : option pystr
}.

(** The Python truth value of [args.out]. *)
Definition truthy (o : option pystr) : bool :=
  match o with
  | None => false
  | Some [] => false
  | Some (_ :: _) => true
  end.

Definition missing_column_message : pystr :=
  str "CSV must contain an 'image_path' column.".

(** [f"Latent paths written → {out}"]; the arrow is U+2192. *)
Definition confirmation (out : pystr) : pystr :=
  str "Latent paths written " ++ [8594%N] ++ str " " ++ out.

Section Main.

(** The collaborators of [main] outside this file: the text of a CSV
    file, its parsing by [pd.read_csv(_, dtype=str)], its writing by
    [df.to_csv(_, index=False)], the normal form [str(Path(_))] of a
    path and the traceback the interpreter prints for an exception
    nobody caught. *)
Variable csv : Type.
Variable read_csv : csv -> result DataFrame.
Variable to_csv : DataFrame -> csv.
Variable Path : pystr -> pystr.
Variable traceback : exn -> pystr.

(** What becomes of a write to a file: it is done, or the file cannot be
    opened and stays as it was, or the write breaks off with the file
    holding what was written so far. *)
Inductive write_outcome : Type :=
| Written
| NotOpened (e : exn)
| Broken (e : exn) (partial : csv).

(** The files, what was printed, and what the surroundings allow: the
    outcome of writing a text to a path, and the exception [print] raises
    on a line, if any (an output encoding without the arrow, say). *)
Record world : Type := mkWorld {
  files : pystr -> option csv;
  stdout : list pystr;
  stderr : list pystr;
  on_write : pystr -> csv -> write_outcome;
  on_print : pystr -> option exn
}.

Definition write_file (path : pystr) (text : csv) (fs : pystr -> option csv)
  : pystr -> option csv :=
  fun q => if pystr_eqb q path then Some text else fs q.

Definition with_files (fs : pystr -> option csv) (w : world) : world :=
  mkWorld fs (stdout w) (stderr w) (on_write w) (on_print w).

Definition with_stdout (lines : list pystr) (w : world) : world :=
  mkWorld (files w) lines (stderr w) (on_write w) (on_print w).

Definition with_stderr (lines : list pystr) (w : world) : world :=
  mkWorld (files w) (stdout w) lines (on_write w) (on_print w).

(** [Path(args.out) if args.out else inp] *)
Definition out_path (args : Namespace) : pystr :=
  match out args with
  | Some o => if truthy (Some o) then Path o else Path (inp args)
  | None => Path (inp args)
  end.

(** [df.to_csv(out, index=False)] *)
Definition write_csv (out : pystr) (df : DataFrame) (w : world)
  : result unit * world :=
  match on_write w out (to_csv df) with
  | Written => (Ok tt, with_files (write_file out (to_csv df) (files w)) w)
  | NotOpened e => (Raise e, w)
  | Broken e partial =>
      (Raise e, with_files (write_file out partial (files w)) w)
  end.

(** [print(line)] *)
Definition print_line (line : pystr) (w : world) : result unit * world :=
  match on_print w line with
  | None => (Ok tt, with_stdout (stdout w ++ [line]) w)
  | Some e => (Raise e, w)
  end.

(** [main] from the parsed arguments on: the exception it ends with, if
    any, and the files and output it leaves. *)
Definition main (args : Namespace) (w : world) : result unit * world :=
  let inp := Path (inp args) in
  let out := out_path args in
  match files w inp with
  | None => (Raise (FileNotFoundError inp), w)
  | Some text =>
      match read_csv text with
      | Raise e => (Raise e, w)
      | Ok df =>
          if negb (existsb (pystr_eqb image_path) (columns df))
          then (Raise (SystemExit missing_column_message), w)
          else
            match fill_latent df with
            | (Raise e, _) => (Raise e, w)
            | (Ok _, df') =>
                match write_csv out df' w with
                | (Raise e, w') => (Raise e, w')
                | (Ok _, w') => print_line (confirmation out) w'
                end
            end
      end
  end.

(** The script run by the interpreter: the exit status and what is left.
    [sys.exit(message)] prints the message on the standard error and
    gives status 1, as does any other uncaught exception with its
    traceback. *)
Definition run_script (args : Namespace) (w : world) : nat * world :=
  match main args w with
  | (Ok _, w') => (0, w')
  | (Raise (SystemExit message), w') =>
      (1, with_stderr (stderr w' ++ [message]) w')
  | (Raise e, w') =>
      (1, with_stderr (stderr w' ++ [traceback e]) w')
  end.

End Main.

(* ===================================================================== *)
(** ** The vocabulary of the specification *)
(* ===================================================================== *)

(** ASCII case folding: the plain reading of _case-insensitive_. *)
Definition ascii_lower (c : N) : N :=
  if ((65 <=? c) && (c <=? 90))%N then (c + 32)%N else c.

(** A recognized marker: [".nii"] or [".nii.gz"], in any letter case. *)
Definition is_marker (m : pystr) : bool :=
  pystr_eqb (map ascii_lower m) (str ".nii")
  || pystr_eqb (map ascii_lower m) (str ".nii.gz").

Definition lastn (n : nat) (s : pystr) : pystr := skipn (length s - n) s.

(** The string ends with a recognized marker. *)
Definition ends_with_marker (s : pystr) : bool :=
  is_marker (lastn 4 s) || is_marker (lastn 7 s).

(** [v] is [img] with its trailing marker replaced by ["_latent.npz"]. *)
Definition suffix_substituted (img v : pystr) : Prop :=
  exists p m, img = p ++ m /\ is_marker m = true /\ v = p ++ latent_suffix.

(** A target value that is unset (absent, [nan] or [pd.NA]), or equal to
    the empty string once trimmed. *)
Definition unset_or_blank (c : option cell) : bool :=
  match c with
  | None | Some NaN | Some NA => true
  | Some (Str s) => pystr_eqb (strip s) []
  end.

(** The missing test of [fill_latent] on one cell. *)
Definition is_missing (c : cell) : bool :=
  isna c || pystr_eqb (strip (astype_str c)) (str "").

(** The target value of row [i] on entry; a column that is absent holds
    no value. *)
Definition cell_at (name : pystr) (df : DataFrame) (i : nat) : option cell :=
  match column name df with
  | Some col => nth_error col i
  | None => None
  end.

(** Every source value of the frame is a string that ends with a
    recognized marker. *)
Definition cell_ends_with_marker (c : cell) : bool :=
  match c with
  | Str s => ends_with_marker s
  | NaN | NA => false
  end.

Definition all_images_marked (df : DataFrame) : bool :=
  match column image_path df with
  | Some images => forallb cell_ends_with_marker images
  | None => false
  end.

(** The frame once [fill_latent] has made sure that the target column
    exists, and that column: the one found on entry, or a fresh one that
    is unset in every row. *)
Definition ensure_latent (df : DataFrame) : DataFrame :=
  if existsb (pystr_eqb latent_path) (columns df) then df
  else mkDataFrame (nrows df)
         (data df ++ [(latent_path, repeat NA (nrows df))]).

Definition target_on_entry (df : DataFrame) : list cell :=
  match column latent_path df with
  | Some col => col
  | None => repeat NA (nrows df)
  end.

(** The text the pattern itself accepts as a marker: each literal of
    [.nii] or [.nii.gz] against one character, under [IGNORECASE]. *)
Fixpoint matches_lits (lits m : pystr) : bool :=
  match lits, m with
  | [], [] => true
  | l :: lits', c :: m' => Re.char_match true l c && matches_lits lits' m'
  | _, _ => false
  end.

Definition re_marker (m : pystr) : bool :=
  matches_lits (str ".nii") m || matches_lits (str ".nii.gz") m.

(* ===================================================================== *)
(** ** Sample manifests *)
(* ===================================================================== *)

(** Four rows: an unset target, a filled one that does not agree with its
    source, a white-space one and an empty one. *)
Definition manifest : DataFrame :=
  mkDataFrame 4
    [ (str "subject", [Str (str "s1"); Str (str "s2"); Str (str "s3");
                       Str (str "s4")]);
      (image_path, [Str (str "a.nii"); Str (str "b.nii.gz");
                    Str (str "c.v2.NII"); Str (str "d.Nii.GZ")]);
      (latent_path, [NaN; Str (str "elsewhere.npz"); Str [32%N; 9%N];
                     Str []]) ].

(** No target column yet. *)
Definition manifest_without_target : DataFrame :=
  mkDataFrame 2
    [ (image_path, [Str (str "a.nii"); Str (str "b.NII.gz")]) ].

(** A source value that is not an image, without and with a target
    column. *)
Definition manifest_bad_source : DataFrame :=
  mkDataFrame 2
    [ (image_path, [Str (str "a.nii"); Str (str "b.txt")]) ].

Definition manifest_bad_source_with_target : DataFrame :=
  mkDataFrame 2
    [ (image_path, [Str (str "a.nii"); Str (str "b.txt")]);
      (latent_path, [Str (str "a_latent.npz"); NaN]) ].

(** No source column. *)
Definition manifest_without_source : DataFrame :=
  mkDataFrame 1 [ (str "subject", [Str (str "s1")]) ].

(** A file system with one manifest, stored under [name]; the text of a
    file is taken to be the frame it parses to. *)
Definition one_file (name : pystr) (df : DataFrame)
  : pystr -> option DataFrame :=
  fun q => if pystr_eqb q name then Some df else None.

(** Collaborators for the samples: a path is its own normal form and a
    traceback is one line. *)
Definition sample_read_csv (text : DataFrame) : result DataFrame := Ok text.
Definition sample_to_csv (df : DataFrame) : DataFrame := df.
Definition sample_Path (p : pystr) : pystr := p.
Definition sample_traceback (e : exn) : pystr := str "Traceback".

Definition sample_args : Namespace := mkNamespace (str "manifest.csv") None.

Definition sample_world (df : DataFrame) : world DataFrame :=
  mkWorld (one_file (str "manifest.csv") df) [] []
          (fun _ _ => Written DataFrame) (fun _ => None).

(** [--out filled.csv] *)
Definition sample_args_out : Namespace :=
  mkNamespace (str "manifest.csv") (Some (str "filled.csv")).

(** Surroundings in which no file can be opened for writing, and
    surroundings whose output cannot encode the arrow of the
    confirmation. *)
Definition sample_world_read_only (df : DataFrame) : world DataFrame :=
  mkWorld (one_file (str "manifest.csv") df) [] []
          (fun path _ => NotOpened DataFrame (OSError path)) (fun _ => None).

Definition sample_world_ascii (df : DataFrame) : world DataFrame :=
  mkWorld (one_file (str "manifest.csv") df) [] []
          (fun _ _ => Written DataFrame)
          (fun line => if existsb (N.ltb 127) line
                       then Some (UnicodeEncodeError line) else None).

(** The markers of the pattern, character by character: [n], [g] and [z]
    in either ASCII case, and for [i] also the dotted capital I (U+0130)
    and the dotless i (U+0131). *)
Definition is_dot (c : N) : bool := (c =? 46)%N.
Definition is_n (c : N) : bool := ((c =? 110) || (c =? 78))%N.
Definition is_i (c : N) : bool :=
  ((c =? 105) || (c =? 73) || (c =? 304) || (c =? 305))%N.
Definition is_g (c : N) : bool := ((c =? 103) || (c =? 71))%N.
Definition is_z (c : N) : bool := ((c =? 122) || (c =? 90))%N.

Definition accepted_marker (m : pystr) : bool :=
  match m with
  | [d; n; i; i'] => is_dot d && is_n n && is_i i && is_i i'
  | [d; n; i; i'; d'; g; z] =>
      is_dot d && is_n n && is_i i && is_i i'
      && is_dot d' && is_g g && is_z z
  | _ => false
  end.

(** Every target is filled, and the only source value is not an image. *)
Definition manifest_filled : DataFrame :=
  mkDataFrame 1
    [ (image_path, [Str (str "b.txt")]);
      (latent_path, [Str (str "b_latent.npz")]) ].

(** Two missing rows whose sources both fail: the first one is unset. *)
Definition manifest_two_failures : DataFrame :=
  mkDataFrame 3
    [ (image_path, [Str (str "a.nii"); NaN; Str (str "c.txt")]) ].

(* ===================================================================== *)
(** ** Strings: auxiliary facts *)
(* ===================================================================== *)

Lemma pystr_eqb_eq (a b : pystr) : pystr_eqb a b = true <-> a = b.
Proof.
  unfold pystr_eqb. destruct (list_eq_dec N.eq_dec a b); split; congruence.
Qed.

Lemma pystr_eqb_refl (a : pystr) : pystr_eqb a a = true.
Proof. now apply pystr_eqb_eq. Qed.

Lemma pystr_eqb_neq (a b : pystr) : pystr_eqb a b = false <-> a <> b.
Proof.
  unfold pystr_eqb. destruct (list_eq_dec N.eq_dec a b); split; congruence.
Qed.

(** Boolean tests on code points, turned into arithmetic. *)
Ltac nbool :=
  repeat match goal with
  | H : (_ && _)%bool = true |- _ => apply andb_prop in H; destruct H
  | H : (_ || _)%bool = true |- _ => apply orb_prop in H; destruct H
  | H : (_ && _)%bool = false |- _ => apply andb_false_iff in H; destruct H
  | H : (_ || _)%bool = false |- _ => apply orb_false_iff in H; destruct H
  | H : (_ =? _)%N = true |- _ => apply N.eqb_eq in H
  | H : (_ =? _)%N = false |- _ => apply N.eqb_neq in H
  | H : (_ <=? _)%N = true |- _ => apply N.leb_le in H
  | H : (_ <=? _)%N = false |- _ => apply N.leb_gt in H
  end.

Lemma tolower_cases (c : N) :
  (65 <= c <= 90 /\ Unicode.tolower c = c + 32)%N
  \/ (c = 304 /\ Unicode.tolower c = 105)%N
  \/ (c = 8490 /\ Unicode.tolower c = 107)%N
  \/ ((c < 65 \/ 90 < c)%N /\ c <> 304%N /\ c <> 8490%N /\ Unicode.tolower c = c).
Proof.
  unfold Unicode.tolower.
  destruct ((65 <=? c) && (c <=? 90))%N eqn:E1;
    [| destruct (c =? 304)%N eqn:E2; [| destruct (c =? 8490)%N eqn:E3]];
    nbool; lia.
Qed.

(** The escaped dot is matched by the dot alone. *)
Lemma char_match_dot (c : N) :
  Re.char_match true (chr ".") c = true -> c = chr ".".
Proof.
  unfold Re.char_match. cbn [existsb]. change (Unicode.tolower (chr ".")) with 46%N.
  change (Unicode.ignorecase_fixes 46) with (@nil N). cbn [existsb].
  rewrite orb_false_r. intros H. nbool. change (chr ".") with 46%N.
  destruct (tolower_cases c) as [[? E]|[[? E]|[[? E]|[? [? [? E]]]]]]; lia.
Qed.

(** A letter of the pattern matches its two ASCII cases. *)
Lemma char_match_ascii (l c : N) :
  In l (str "nigz") -> ascii_lower c = l -> Re.char_match true l c = true.
Proof.
  intros Hl Hc. unfold ascii_lower in Hc.
  assert (c = l \/ c = (l - 32)%N) as [->| ->].
  { destruct ((65 <=? c) && (c <=? 90))%N; [right; lia | now left]. }
  - cbn in Hl. repeat (destruct Hl as [<-|Hl]; [reflexivity|]). destruct Hl.
  - cbn in Hl. repeat (destruct Hl as [<-|Hl]; [reflexivity|]). destruct Hl.
Qed.

Lemma char_match_ascii_dot (c : N) :
  ascii_lower c = chr "." -> Re.char_match true (chr ".") c = true.
Proof.
  unfold ascii_lower. change (chr ".") with 46%N.
  destruct ((65 <=? c) && (c <=? 90))%N eqn:E; intros H.
  - nbool. lia.
  - now subst.
Qed.

Ltac lits_ascii :=
  repeat first
    [ rewrite char_match_ascii_dot by assumption
    | rewrite char_match_ascii by (assumption || (cbn; auto 10)) ].

(** A marker in the sense of the specification is one for the pattern. *)
Lemma is_marker_re_marker (m : pystr) : is_marker m = true -> re_marker m = true.
Proof.
  unfold is_marker, re_marker. intros H. apply orb_prop in H.
  destruct H as [H|H]; apply pystr_eqb_eq in H.
  - destruct m as [|a [|b [|c [|d [|? ?]]]]]; try discriminate H.
    injection H as Ha Hb Hc Hd. apply orb_true_intro. left.
    cbn [matches_lits str map list_ascii_of_string]. now lits_ascii.
  - destruct m as [|a [|b [|c [|d [|e [|f [|g [|? ?]]]]]]]]; try discriminate H.
    injection H as Ha Hb Hc Hd He Hf Hg. apply orb_true_intro. right.
    cbn [matches_lits str map list_ascii_of_string]. now lits_ascii.
Qed.

(* ===================================================================== *)
(** ** The pattern [_RE_EXT] at one position *)
(* ===================================================================== *)

Ltac split_lits H :=
  cbn [matches_lits str map list_ascii_of_string] in H;
  repeat match type of H with
  | (_ && _)%bool = true =>
      let H1 := fresh "Hc" in
      apply andb_prop in H; destruct H as [H1 H]
  end.

Lemma at_end_cases (s : pystr) : Re.at_end s = true -> s = [] \/ s = [LF].
Proof.
  destruct s as [|c [|? ?]]; cbn; intros H; try discriminate; auto.
  apply N.eqb_eq in H. subst. auto.
Qed.

Lemma re_marker_cases (m : pystr) :
  re_marker m = true ->
  (exists a b c d, m = [a; b; c; d] /\ matches_lits (str ".nii") m = true)
  \/ (exists a b c d e f g,
        m = [a; b; c; d; e; f; g] /\ matches_lits (str ".nii.gz") m = true).
Proof.
  unfold re_marker. intros H. apply orb_prop in H. destruct H as [H|H].
  - left. destruct m as [|a [|b [|c [|d [|? ?]]]]];
      try (cbn in H; rewrite ?andb_false_r in H; discriminate H).
    now exists a, b, c, d.
  - right. destruct m as [|a [|b [|c [|d [|e [|f [|g [|? ?]]]]]]]];
      try (cbn in H; rewrite ?andb_false_r in H; discriminate H).
    now exists a, b, c, d, e, f, g.
Qed.

(** At the start of a marker that is followed by the end of the string, or
    by its final line feed, the pattern matches the marker, all of it. *)
Lemma match_here_marker (m nl : pystr) :
  re_marker m = true -> Re.at_end nl = true ->
  Re.match_here _RE_EXT (m ++ nl) = Some nl.
Proof.
  intros Hm Hnl. apply at_end_cases in Hnl.
  apply re_marker_cases in Hm.
  destruct Hm as [(a & b & c & d & -> & H)|(a & b & c & d & e & f & g & -> & H)];
    split_lits H; unfold Re.match_here;
    cbn [Re.run Re.ast Re.IGNORECASE _RE_EXT app];
    repeat match goal with Hc : Re.char_match _ _ _ = true |- _ =>
             rewrite Hc; clear Hc end;
    destruct Hnl as [-> | ->]; reflexivity.
Qed.

(** Conversely a match of the pattern is a marker followed by the end of
    the string or by its final line feed. *)
Lemma match_here_inv (s rest : pystr) :
  Re.match_here _RE_EXT s = Some rest ->
  exists m, s = m ++ rest /\ re_marker m = true /\ Re.at_end rest = true.
Proof.
  unfold Re.match_here. cbn [Re.ast Re.IGNORECASE _RE_EXT].
  destruct s as [|a [|b [|c [|d t]]]]; cbn [Re.run];
    repeat match goal with
    | |- context [if Re.char_match ?x ?y ?z then _ else _] =>
        destruct (Re.char_match x y z) eqn:?
    end; try discriminate.
  destruct t as [|e [|f [|g u]]]; cbn [Re.run];
    repeat match goal with
    | |- context [if Re.char_match ?x ?y ?z then _ else _] =>
        destruct (Re.char_match x y z) eqn:?
    | |- context [if Re.at_end ?x then _ else _] =>
        destruct (Re.at_end x) eqn:?
    end; try discriminate;
    intros [= <-];
    first
      [ exists [a; b; c; d]; split; [reflexivity|]
      | exists [a; b; c; d; e; f; g]; split; [reflexivity|] ];
    (split; [| assumption]);
    unfold re_marker; cbn [matches_lits str map list_ascii_of_string];
    repeat match goal with Hc : Re.char_match _ _ _ = true |- _ =>
             rewrite Hc; clear Hc end;
    rewrite ?orb_true_r; reflexivity.
Qed.

(** Two literals of the pattern that no character matches at once, and the
    line feed, which matches none. *)
Ltac char_contra :=
  repeat match goal with
  | H : Re.char_match true (chr ".") ?x = true |- _ =>
      apply char_match_dot in H; first [subst x | discriminate H]
  end;
  match goal with
  | H : Re.char_match true _ _ = true |- _ => vm_compute in H; discriminate H
  end.

(** No match starts before the marker that ends the string. *)
Lemma no_match_before (m nl : pystr) (c : N) (p : pystr) :
  re_marker m = true -> Re.at_end nl = true ->
  Re.match_here _RE_EXT (c :: p ++ m ++ nl) = None.
Proof.
  intros Hm Hnl.
  destruct (Re.match_here _RE_EXT (c :: p ++ m ++ nl)) as [rest|] eqn:E;
    [exfalso | reflexivity].
  apply match_here_inv in E. destruct E as (m' & Hs & Hm' & Hrest).
  apply at_end_cases in Hnl. apply at_end_cases in Hrest.
  apply re_marker_cases in Hm. apply re_marker_cases in Hm'.
  destruct Hm as [(a & b & x & d & -> & H)|(a & b & x & d & e & f & g & -> & H)];
  destruct Hm' as [(a' & b' & x' & d' & -> & H')
                  |(a' & b' & x' & d' & e' & f' & g' & -> & H')];
  destruct Hnl as [-> | ->]; destruct Hrest as [-> | ->];
  split_lits H; split_lits H';
  destruct p as [|p1 [|p2 [|p3 [|p4 [|p5 [|p6 [|p7 [|p8 p]]]]]]]];
  cbn [app] in Hs; try discriminate Hs;
  injection Hs; intros; subst; char_contra.
Qed.

(* ===================================================================== *)
(** ** [search] and [sub] on a string that ends with a marker *)
(* ===================================================================== *)

Lemma re_marker_length (m : pystr) :
  re_marker m = true -> length m = 4 \/ length m = 7.
Proof.
  intros H. apply re_marker_cases in H.
  destruct H as [(a & b & c & d & -> & _)|(a & b & c & d & e & f & g & -> & _)];
    cbn; auto.
Qed.

Lemma search_from_eq (pat : Re.pattern) (pos : nat) (s : pystr) :
  Re.search_from pat pos s
  = match Re.match_here pat s with
    | Some rest => Some (pos, pos + (length s - length rest))
    | None =>
        match s with
        | [] => None
        | _ :: s' => Re.search_from pat (S pos) s'
        end
    end.
Proof. destruct s; reflexivity. Qed.

Lemma search_from_marker (m nl : pystr) :
  re_marker m = true -> Re.at_end nl = true ->
  forall p pos,
    Re.search_from _RE_EXT pos (p ++ m ++ nl)
    = Some (pos + length p, pos + length p + length m).
Proof.
  intros Hm Hnl. induction p as [|c p IH]; intros pos.
  - cbn [app]. rewrite search_from_eq, (match_here_marker _ _ Hm Hnl).
    rewrite length_app. cbn [length]. f_equal. f_equal; lia.
  - cbn [app]. rewrite search_from_eq.
    rewrite (no_match_before _ _ c p Hm Hnl), IH. cbn [length]. f_equal. f_equal; lia.
Qed.

Lemma search_from_inv (s : pystr) :
  forall pos span, Re.search_from _RE_EXT pos s = Some span ->
  exists p m nl, s = p ++ m ++ nl /\ re_marker m = true /\ Re.at_end nl = true.
Proof.
  induction s as [|c s IH]; intros pos span; cbn [Re.search_from].
  - destruct (Re.match_here _RE_EXT []) as [rest|] eqn:E; [|discriminate].
    apply match_here_inv in E. destruct E as (m & Hs & Hm & Hr).
    intros _. now exists [], m, rest.
  - destruct (Re.match_here _RE_EXT (c :: s)) as [rest|] eqn:E.
    + apply match_here_inv in E. destruct E as (m & Hs & Hm & Hr).
      intros _. now exists [], m, rest.
    + intros H. apply IH in H. destruct H as (p & m & nl & -> & Hm & Hnl).
      now exists (c :: p), m, nl.
Qed.

(** The scan of [sub] never stops for want of fuel: any amount above the
    length of the string gives the same text. *)
Lemma sub_loop_fuel (pat : Re.pattern) (repl : pystr) :
  forall fuel fuel' s,
    length s < fuel -> length s < fuel' ->
    Re.sub_loop pat repl fuel s = Re.sub_loop pat repl fuel' s.
Proof.
  induction fuel as [|fuel IH]; intros [|fuel'] s H H'; try lia.
  cbn [Re.sub_loop]. destruct (Re.match_here pat s) as [rest|].
  - destruct (length rest <? length s) eqn:E.
    + apply Nat.ltb_lt in E. f_equal. apply IH; lia.
    + destruct s as [|c s]; [reflexivity|]. do 2 f_equal.
      apply IH; cbn in *; lia.
  - destruct s as [|c s]; [reflexivity|]. f_equal. apply IH; cbn in *; lia.
Qed.

Lemma sub_loop_tail (repl nl : pystr) (fuel : nat) :
  Re.at_end nl = true -> Re.sub_loop _RE_EXT repl fuel nl = nl.
Proof.
  intros H. apply at_end_cases in H.
  destruct H as [-> | ->]; destruct fuel as [|[|fuel]]; reflexivity.
Qed.

Lemma sub_loop_marker (repl m nl : pystr) :
  re_marker m = true -> Re.at_end nl = true ->
  forall p fuel, length p < fuel ->
    Re.sub_loop _RE_EXT repl fuel (p ++ m ++ nl) = p ++ repl ++ nl.
Proof.
  intros Hm Hnl. induction p as [|c p IH]; intros fuel Hfuel.
  - destruct fuel as [|fuel]; [cbn in Hfuel; lia|].
    cbn [app Re.sub_loop]. rewrite (match_here_marker _ _ Hm Hnl).
    assert ((length nl <? length (m ++ nl)) = true) as ->.
    { apply Nat.ltb_lt. rewrite length_app.
      destruct (re_marker_length _ Hm); lia. }
    now rewrite sub_loop_tail.
  - destruct fuel as [|fuel]; [cbn in Hfuel; lia|].
    cbn [app]. cbn [Re.sub_loop]. rewrite (no_match_before _ _ c p Hm Hnl).
    rewrite IH by (cbn in Hfuel; lia). reflexivity.
Qed.

(** The transformer on a marker (in the sense of the pattern) that ends
    the string, or stands before its final line feed. *)
Lemma make_latent_path_marker (p m nl : pystr) :
  re_marker m = true -> Re.at_end nl = true ->
  make_latent_path (p ++ m ++ nl) = Ok (p ++ latent_suffix ++ nl).
Proof.
  intros Hm Hnl. unfold make_latent_path, Re.search, Re.sub.
  rewrite (search_from_marker _ _ Hm Hnl).
  rewrite sub_loop_marker; auto. rewrite !length_app. lia.
Qed.

(** The strings on which the transformer raises: those without a marker
    of the pattern at their end or before their final line feed. *)
Lemma make_latent_path_raises (s : pystr) :
  (forall p m nl, s = p ++ m ++ nl -> re_marker m = true ->
                  Re.at_end nl = true -> False) ->
  make_latent_path s = Raise (ValueError s).
Proof.
  intros H. unfold make_latent_path, Re.search.
  destruct (Re.search_from _RE_EXT 0 s) as [span|] eqn:E; [|reflexivity].
  apply search_from_inv in E. destruct E as (p & m & nl & Hs & Hm & Hnl).
  destruct (H p m nl Hs Hm Hnl).
Qed.

(** The transformer never raises anything but [ValueError] on its
    argument. *)
Lemma make_latent_path_total (s : pystr) :
  (exists v, make_latent_path s = Ok v)
  \/ make_latent_path s = Raise (ValueError s).
Proof.
  unfold make_latent_path. destruct (Re.search _RE_EXT s); eauto.
Qed.

(* ===================================================================== *)
(** ** The vocabulary of the specification, related to the code *)
(* ===================================================================== *)

Lemma is_marker_length (m : pystr) :
  is_marker m = true -> length m = 4 \/ length m = 7.
Proof.
  intros H. now apply re_marker_length, is_marker_re_marker.
Qed.

Lemma lastn_app (p m : pystr) : lastn (length m) (p ++ m) = m.
Proof.
  unfold lastn. rewrite length_app, Nat.add_sub, skipn_app, skipn_all.
  now rewrite Nat.sub_diag.
Qed.

Lemma ends_with_marker_iff (s : pystr) :
  ends_with_marker s = true <->
  exists p m, s = p ++ m /\ is_marker m = true.
Proof.
  unfold ends_with_marker. split.
  - intros H. apply orb_prop in H. destruct H as [H|H].
    + exists (firstn (length s - 4) s), (lastn 4 s).
      split; [symmetry; apply firstn_skipn | exact H].
    + exists (firstn (length s - 7) s), (lastn 7 s).
      split; [symmetry; apply firstn_skipn | exact H].
  - intros (p & m & -> & H). apply orb_true_intro.
    destruct (is_marker_length _ H) as [E|E]; [left|right];
      rewrite <- E, lastn_app; exact H.
Qed.

(** [strip] gives the empty string on white space only, and on nothing
    else. *)
Lemma lstrip_nil_iff (s : pystr) :
  lstrip s = [] <-> forallb Unicode.isspace s = true.
Proof.
  induction s as [|c s IH]; cbn; [tauto|].
  destruct (Unicode.isspace c); cbn; [exact IH|]. split; discriminate.
Qed.

Lemma lstrip_idem (s : pystr) : lstrip (lstrip s) = lstrip s.
Proof.
  induction s as [|c s IH]; [reflexivity|]. cbn.
  destruct (Unicode.isspace c) eqn:E; [exact IH|]. cbn. now rewrite E.
Qed.

Lemma forallb_rev {A : Type} (f : A -> bool) (l : list A) :
  forallb f (rev l) = forallb f l.
Proof.
  induction l as [|a l IH]; [reflexivity|]. cbn.
  rewrite forallb_app, IH. cbn. rewrite andb_true_r. apply andb_comm.
Qed.

Lemma rev_nil_iff {A : Type} (l : list A) : rev l = [] <-> l = [].
Proof.
  split; [|now intros ->]. intros H.
  apply (f_equal (@length A)) in H. rewrite length_rev in H.
  now destruct l.
Qed.

Lemma strip_nil_iff (s : pystr) :
  strip s = [] <-> forallb Unicode.isspace s = true.
Proof.
  unfold strip, rstrip, pystr.
  rewrite rev_nil_iff, lstrip_nil_iff, forallb_rev, <- lstrip_nil_iff.
  rewrite lstrip_idem. apply lstrip_nil_iff.
Qed.

(* ===================================================================== *)
(** ** Columns of a frame *)
(* ===================================================================== *)

Lemma contains_lookup (name : pystr) (cols : list (pystr * list cell)) :
  existsb (pystr_eqb name) (map fst cols)
  = match lookup_col name cols with Some _ => true | None => false end.
Proof.
  induction cols as [|[n v] cols IH]; [reflexivity|]. cbn.
  destruct (pystr_eqb name n); [reflexivity | exact IH].
Qed.

Lemma lookup_col_app (name : pystr) (cols cols' : list (pystr * list cell)) :
  lookup_col name (cols ++ cols')
  = match lookup_col name cols with
    | Some v => Some v
    | None => lookup_col name cols'
    end.
Proof.
  induction cols as [|[n v] cols IH]; [reflexivity|]. cbn.
  destruct (pystr_eqb name n); [reflexivity | exact IH].
Qed.

Lemma lookup_replace_same (name : pystr) (v : list cell)
      (cols : list (pystr * list cell)) :
  lookup_col name cols <> None ->
  lookup_col name (replace_col name v cols) = Some v.
Proof.
  induction cols as [|[n w] cols IH]; cbn; [congruence|].
  destruct (pystr_eqb name n) eqn:E; cbn; rewrite E; auto.
Qed.

Lemma lookup_replace_other (name name' : pystr) (v : list cell)
      (cols : list (pystr * list cell)) :
  name' <> name ->
  lookup_col name' (replace_col name v cols) = lookup_col name' cols.
Proof.
  intros Hne. induction cols as [|[n w] cols IH]; [reflexivity|]. cbn.
  destruct (pystr_eqb name n) eqn:E; cbn.
  - apply pystr_eqb_eq in E. subst n. apply pystr_eqb_neq in Hne.
    now rewrite Hne.
  - now rewrite IH.
Qed.

Lemma replace_col_id (name : pystr) (v : list cell)
      (cols : list (pystr * list cell)) :
  lookup_col name cols = Some v -> replace_col name v cols = cols.
Proof.
  induction cols as [|[n w] cols IH]; [reflexivity|]. cbn.
  destruct (pystr_eqb name n) eqn:E.
  - now intros [= ->].
  - intros H. now rewrite IH.
Qed.

Lemma wf_column_length (df : DataFrame) (name : pystr) (v : list cell) :
  wf df -> column name df = Some v -> length v = nrows df.
Proof.
  intros [_ H]. unfold column. induction (data df) as [|[n w] cols IH];
    cbn; [discriminate|].
  cbn in H. apply andb_prop in H. destruct H as [Hw Hcols].
  apply Nat.eqb_eq in Hw.
  destruct (pystr_eqb name n); [intros [= <-]; exact Hw | now apply IH].
Qed.

Lemma image_latent_distinct : image_path <> latent_path.
Proof. discriminate. Qed.

Lemma column_latent_ensure (df : DataFrame) :
  column latent_path (ensure_latent df) = Some (target_on_entry df).
Proof.
  unfold ensure_latent, target_on_entry, column, columns.
  rewrite contains_lookup.
  destruct (lookup_col latent_path (data df)) as [l|] eqn:E; [exact E|].
  cbn [data]. rewrite lookup_col_app, E. cbn [lookup_col].
  now rewrite pystr_eqb_refl.
Qed.

Lemma column_other_ensure (df : DataFrame) (name : pystr) :
  name <> latent_path -> column name (ensure_latent df) = column name df.
Proof.
  intros Hne. unfold ensure_latent, column, columns.
  destruct (existsb _ _); [reflexivity|]. cbn [data].
  rewrite lookup_col_app. destruct (lookup_col name (data df)); [reflexivity|].
  cbn [lookup_col]. apply pystr_eqb_neq in Hne. now rewrite Hne.
Qed.

Lemma nrows_ensure (df : DataFrame) : nrows (ensure_latent df) = nrows df.
Proof. unfold ensure_latent. now destruct (existsb _ _). Qed.

Lemma target_on_entry_length (df : DataFrame) :
  wf df -> length (target_on_entry df) = nrows df.
Proof.
  intros H. unfold target_on_entry.
  destruct (column latent_path df) as [l|] eqn:E.
  - exact (wf_column_length _ H E).
  - apply repeat_length.
Qed.

(** The mask of [fill_latent], cell by cell. *)
Lemma mask_missing_eq (l : list cell) :
  zip_with orb (map isna l)
    (map (fun s => pystr_eqb (strip s) (str "")) (map astype_str l))
  = map is_missing l.
Proof.
  induction l as [|c l IH]; [reflexivity|]. cbn [map zip_with].
  now rewrite IH.
Qed.

Lemma is_missing_unset_or_blank (c : cell) :
  is_missing c = unset_or_blank (Some c).
Proof. destruct c; reflexivity. Qed.

(** [fill_latent], its monadic steps carried out. *)
Lemma fill_latent_eq (df : DataFrame) :
  fill_latent df
  = let mask := map is_missing (target_on_entry df) in
    match column image_path df with
    | None => (Raise (KeyError image_path), ensure_latent df)
    | Some images =>
        match apply call_make_latent_path (select mask 0 images) with
        | Raise e => (Raise e, ensure_latent df)
        | Ok new =>
            (Ok tt,
             mkDataFrame (nrows df)
               (replace_col latent_path
                  (assign mask 0 (target_on_entry df) new)
                  (data (ensure_latent df))))
        end
    end.
Proof.
  pose proof (column_latent_ensure df) as Hlat.
  pose proof (@column_other_ensure df image_path image_latent_distinct) as Himg.
  pose proof (nrows_ensure df) as Hn.
  unfold fill_latent, bind, contains.
  assert (Hstep : (if negb (existsb (pystr_eqb latent_path) (columns df))
                   then setitem_scalar latent_path NA else ret tt) df
                  = (Ok tt, ensure_latent df)).
  { unfold ensure_latent, setitem_scalar, ret.
    destruct (existsb (pystr_eqb latent_path) (columns df)) eqn:E; cbn [negb];
      [reflexivity | now rewrite E]. }
  rewrite Hstep. unfold getitem. rewrite Hlat. cbv beta iota.
  rewrite Hlat. cbv beta iota. rewrite mask_missing_eq.
  unfold loc_getitem, lift, loc_setitem. rewrite Himg.
  destruct (column image_path df) as [images|]; [|reflexivity].
  cbv beta iota zeta.
  destruct (apply call_make_latent_path _) as [new|e]; [|reflexivity].
  now rewrite Hlat, Hn.
Qed.

(* ===================================================================== *)
(** ** Selection, [apply] and aligned assignment, row by row *)
(* ===================================================================== *)

Section Rows.

Variable f : cell -> result cell.

(** A selected row has, under its label, the value [f] gave for it. *)
Lemma apply_select_at (mask : list bool) :
  forall col pos new i c,
    apply f (select mask pos col) = Ok new ->
    nth_error mask i = Some true -> nth_error col i = Some c ->
    exists v, f c = Ok v /\ at_label (pos + i) new = Some v.
Proof.
  induction mask as [|b mask IH]; intros [|c0 col] pos new i c;
    try (destruct i; discriminate).
  cbn [select]. destruct b.
  - cbn [apply]. destruct (f c0) as [v0|e] eqn:E0; [|discriminate].
    destruct (apply f (select mask (S pos) col)) as [r|e] eqn:E;
      [|discriminate].
    intros [= <-]. destruct i as [|i]; cbn [nth_error].
    + intros _ [= <-]. exists v0. split; [exact E0|]. cbn.
      now rewrite Nat.add_0_r, Nat.eqb_refl.
    + intros Hm Hc. destruct (IH _ _ _ _ _ E Hm Hc) as (v & Hv & Hl).
      exists v. split; [exact Hv|]. cbn.
      destruct (Nat.eqb_spec (pos + S i) pos); [lia|].
      now rewrite Nat.add_succ_r.
  - intros H. destruct i as [|i]; cbn [nth_error]; [discriminate|].
    intros Hm Hc. destruct (IH _ _ _ _ _ H Hm Hc) as (v & Hv & Hl).
    exists v. split; [exact Hv|]. now rewrite Nat.add_succ_r.
Qed.

(** [apply] succeeds when [f] does on every selected row ... *)
Lemma apply_select_Ok (mask : list bool) :
  forall col pos,
    (forall i c, nth_error mask i = Some true -> nth_error col i = Some c ->
                 exists v, f c = Ok v) ->
    exists new, apply f (select mask pos col) = Ok new.
Proof.
  induction mask as [|b mask IH]; intros [|c0 col] pos H; cbn [select];
    try (now exists []).
  assert (H' : forall i c, nth_error mask i = Some true ->
                            nth_error col i = Some c -> exists v, f c = Ok v).
  { intros i c Hm Hc. exact (H (S i) c Hm Hc). }
  destruct (IH col (S pos) H') as (r & Hr). destruct b.
  - destruct (H 0 c0 eq_refl eq_refl) as (v0 & Hv0).
    exists ((pos, v0) :: r). cbn. now rewrite Hv0, Hr.
  - now exists r.
Qed.

(** ... and raises as soon as it fails on one of them. *)
Lemma apply_select_Raise (mask : list bool) :
  forall col pos i c e,
    nth_error mask i = Some true -> nth_error col i = Some c ->
    f c = Raise e ->
    exists e', apply f (select mask pos col) = Raise e'.
Proof.
  induction mask as [|b mask IH]; intros [|c0 col] pos i c e;
    try (destruct i; discriminate).
  cbn [select]. destruct i as [|i]; cbn [nth_error].
  - intros [= ->] [= ->] He. exists e. cbn. now rewrite He.
  - intros Hm Hc He. destruct (IH col (S pos) i c e Hm Hc He) as (e' & He').
    destruct b; [|now exists e']. cbn.
    destruct (f c0); [rewrite He'|]; eauto.
Qed.

End Rows.

Lemma nth_error_assign (mask : list bool) :
  forall col pos new i b c,
    nth_error mask i = Some b -> nth_error col i = Some c ->
    nth_error (assign mask pos col new) i
    = Some (if b then match at_label (pos + i) new with
                      | Some v => v
                      | None => NaN
                      end
            else c).
Proof.
  induction mask as [|b0 mask IH]; intros [|c0 col] pos new i b c;
    try (destruct i; discriminate).
  destruct i as [|i]; cbn [nth_error assign].
  - intros [= ->] [= ->]. now rewrite Nat.add_0_r.
  - intros Hm Hc. rewrite (IH _ _ _ _ _ _ Hm Hc). now rewrite Nat.add_succ_r.
Qed.

Lemma assign_length (mask : list bool) :
  forall col pos new, length (assign mask pos col new) = length col.
Proof.
  induction mask as [|b mask IH]; intros [|c col] pos new; cbn; auto.
Qed.

(** With nothing selected, nothing is read and nothing is assigned. *)
Lemma select_none (mask : list bool) :
  forall col pos, forallb negb mask = true -> select mask pos col = [].
Proof.
  induction mask as [|b mask IH]; intros [|c col] pos; cbn; auto.
  destruct b; cbn; [discriminate | auto].
Qed.

Lemma assign_none (mask : list bool) :
  forall col pos new, forallb negb mask = true ->
                      assign mask pos col new = col.
Proof.
  induction mask as [|b mask IH]; intros [|c col] pos new; cbn; auto.
  destruct b; cbn; [discriminate|]. intros H. now rewrite IH.
Qed.

(* ===================================================================== *)
(** ** What the transformer returns *)
(* ===================================================================== *)

(** Whatever the transformer returns carries the new suffix, so it is not
    blank. *)
Lemma make_latent_path_Ok_inv (s v : pystr) :
  make_latent_path s = Ok v ->
  exists p m nl, s = p ++ m ++ nl /\ re_marker m = true /\
                 Re.at_end nl = true /\ v = p ++ latent_suffix ++ nl.
Proof.
  intros H. unfold make_latent_path, Re.search in H.
  destruct (Re.search_from _RE_EXT 0 s) as [span|] eqn:E; [|discriminate].
  apply search_from_inv in E. destruct E as (p & m & nl & -> & Hm & Hnl).
  exists p, m, nl. repeat split; auto.
  assert (H' : make_latent_path (p ++ m ++ nl) = Ok v).
  { unfold make_latent_path, Re.search.
    now rewrite (search_from_marker _ _ Hm Hnl). }
  rewrite (make_latent_path_marker p _ _ Hm Hnl) in H'. congruence.
Qed.

Lemma make_latent_path_not_blank (s v : pystr) :
  make_latent_path s = Ok v -> pystr_eqb (strip v) [] = false.
Proof.
  intros H. apply make_latent_path_Ok_inv in H.
  destruct H as (p & m & nl & _ & _ & _ & ->).
  apply pystr_eqb_neq. rewrite strip_nil_iff, !forallb_app.
  change (forallb Unicode.isspace latent_suffix) with false.
  rewrite andb_false_r. discriminate.
Qed.

Lemma call_make_latent_path_Ok (img v : cell) :
  call_make_latent_path img = Ok v ->
  exists s r, img = Str s /\ v = Str r /\ make_latent_path s = Ok r.
Proof.
  destruct img as [| |s]; cbn; try discriminate.
  destruct (make_latent_path s) as [r|e] eqn:E; [|discriminate].
  intros [= <-]. now exists s, r.
Qed.

Lemma call_make_latent_path_not_missing (img v : cell) :
  call_make_latent_path img = Ok v -> is_missing v = false.
Proof.
  intros H. apply call_make_latent_path_Ok in H.
  destruct H as (s & r & _ & -> & H). cbn.
  exact (make_latent_path_not_blank _ H).
Qed.

(* ===================================================================== *)
(** ** The column filler, row by row *)
(* ===================================================================== *)

Lemma column_latent_replaced (df : DataFrame) (lat : list cell) (n : nat) :
  column latent_path
    (mkDataFrame n (replace_col latent_path lat (data (ensure_latent df))))
  = Some lat.
Proof.
  unfold column. cbn [data]. apply lookup_replace_same.
  pose proof (column_latent_ensure df) as H. unfold column in H.
  rewrite H. discriminate.
Qed.

Lemma column_other_replaced (df : DataFrame) (lat : list cell) (n : nat)
      (name : pystr) :
  name <> latent_path ->
  column name
    (mkDataFrame n (replace_col latent_path lat (data (ensure_latent df))))
  = column name df.
Proof.
  intros Hne. unfold column at 1. cbn [data].
  rewrite lookup_replace_other by exact Hne.
  exact (column_other_ensure df Hne).
Qed.

(** The target value on entry, as the frame has it and as [fill_latent]
    sees it once the column is there. *)
Lemma target_on_entry_row (df : DataFrame) (i : nat) :
  wf df -> i < nrows df ->
  exists c, nth_error (target_on_entry df) i = Some c
            /\ unset_or_blank (cell_at latent_path df i) = is_missing c
            /\ (is_missing c = false -> cell_at latent_path df i = Some c).
Proof.
  intros Hwf Hi. pose proof (target_on_entry_length Hwf) as Hlen.
  destruct (nth_error (target_on_entry df) i) as [c|] eqn:E;
    [| apply nth_error_None in E; lia].
  exists c. split; [reflexivity|].
  unfold cell_at, target_on_entry in *.
  destruct (column latent_path df) as [l|].
  - rewrite E. split; [now rewrite is_missing_unset_or_blank | reflexivity].
  - apply nth_error_In, repeat_spec in E. subst c. split; [reflexivity|].
    discriminate.
Qed.

Lemma image_row (df : DataFrame) (images : list cell) (i : nat) :
  wf df -> column image_path df = Some images -> i < nrows df ->
  exists img, nth_error images i = Some img.
Proof.
  intros Hwf Himg Hi. pose proof (wf_column_length _ Hwf Himg) as Hlen.
  destruct (nth_error images i) as [img|] eqn:E; [now exists img|].
  apply nth_error_None in E. lia.
Qed.

(** A successful run, row by row: a missing target is replaced by what
    the transformer gives for the source of the row, any other target is
    kept. *)
Lemma fill_latent_Ok_rows (df df' : DataFrame) :
  wf df -> fill_latent df = (Ok tt, df') ->
  exists images lat',
    column image_path df = Some images
    /\ df' = mkDataFrame (nrows df)
               (replace_col latent_path lat' (data (ensure_latent df)))
    /\ length lat' = nrows df
    /\ forall i c img,
         nth_error (target_on_entry df) i = Some c ->
         nth_error images i = Some img ->
         if is_missing c
         then exists v, call_make_latent_path img = Ok v
                        /\ nth_error lat' i = Some v
         else nth_error lat' i = Some c.
Proof.
  intros Hwf. rewrite fill_latent_eq. cbv zeta.
  destruct (column image_path df) as [images|] eqn:Himg; [|discriminate].
  destruct (apply call_make_latent_path _) as [new|e] eqn:Happ; [|discriminate].
  intros [= <-]. exists images, (assign (map is_missing (target_on_entry df)) 0
                                       (target_on_entry df) new).
  split; [reflexivity|]. split; [reflexivity|]. split.
  - rewrite assign_length. now apply target_on_entry_length.
  - intros i c img Hc Hi.
    assert (Hm : nth_error (map is_missing (target_on_entry df)) i
                 = Some (is_missing c)) by (now rewrite nth_error_map, Hc).
    rewrite (nth_error_assign _ _ _ _ _ Hm Hc). cbn [Nat.add].
    destruct (is_missing c) eqn:Ec; [|reflexivity].
    destruct (apply_select_at _ _ _ _ _ Happ Hm Hi) as (v & Hv & Hl).
    exists v. cbn [Nat.add] in Hl. now rewrite Hl.
Qed.

(** The transformer on a string that ends with a recognized marker. *)
Lemma make_latent_path_ends_with_marker (s : pystr) :
  ends_with_marker s = true ->
  exists v, make_latent_path s = Ok v /\ suffix_substituted s v.
Proof.
  intros H. apply ends_with_marker_iff in H. destruct H as (p & m & -> & Hm).
  exists (p ++ latent_suffix). split; [|now exists p, m].
  pose proof (@make_latent_path_marker p m [] (is_marker_re_marker _ Hm) eq_refl)
    as H.
  now rewrite !app_nil_r in H.
Qed.

(** [fill_latent] succeeds when every source value ends with a marker. *)
Lemma fill_latent_Ok_of_markers (df : DataFrame) :
  all_images_marked df = true -> exists df', fill_latent df = (Ok tt, df').
Proof.
  unfold all_images_marked. rewrite fill_latent_eq. cbv zeta.
  destruct (column image_path df) as [images|]; [|discriminate].
  intros Hall.
  destruct (@apply_select_Ok call_make_latent_path
              (map is_missing (target_on_entry df)) images 0) as (new & ->).
  - intros i c _ Hc. apply nth_error_In in Hc.
    rewrite forallb_forall in Hall. specialize (Hall c Hc).
    destruct c as [| |s]; try discriminate. cbn in Hall.
    destruct (make_latent_path_ends_with_marker _ Hall) as (v & Hv & _).
    exists (Str v). cbn. now rewrite Hv.
  - eauto.
Qed.

(** [fill_latent] raises when the transformer fails on a row of the
    missing-set, and then leaves the frame as it was once the target
    column was there. *)
Lemma fill_latent_raises (df : DataFrame) (i : nat) (img : cell) (e0 : exn) :
  wf df -> i < nrows df ->
  unset_or_blank (cell_at latent_path df i) = true ->
  cell_at image_path df i = Some img ->
  call_make_latent_path img = Raise e0 ->
  exists e, fill_latent df = (Raise e, ensure_latent df).
Proof.
  intros Hwf Hi Hmiss Himg Hcall. rewrite fill_latent_eq. cbv zeta.
  unfold cell_at in Himg.
  destruct (column image_path df) as [images|]; [|discriminate].
  destruct (target_on_entry_row Hwf Hi) as (c & Hc & Hu & _).
  rewrite Hmiss in Hu.
  assert (Hm : nth_error (map is_missing (target_on_entry df)) i = Some true)
    by (rewrite nth_error_map, Hc; cbn; now rewrite <- Hu).
  destruct (apply_select_Raise call_make_latent_path _ _ 0 _ Hm Himg Hcall)
    as (e & ->).
  now exists e.
Qed.

(** A second run finds nothing missing and leaves the frame alone. *)
Lemma fill_latent_twice (df df' : DataFrame) :
  wf df -> fill_latent df = (Ok tt, df') -> fill_latent df' = (Ok tt, df').
Proof.
  intros Hwf H.
  destruct (fill_latent_Ok_rows Hwf H) as (images & lat' & Himg & -> & Hlen & Hrows).
  pose proof (column_latent_replaced df lat' (nrows df)) as Hlat.
  pose proof (@column_other_replaced df lat' (nrows df) _ image_latent_distinct)
    as Himg'.
  rewrite Himg in Himg'.
  assert (Hnone : forallb negb (map is_missing lat') = true).
  { apply forallb_forall. intros b Hb. apply in_map_iff in Hb.
    destruct Hb as (c' & <- & Hc'). apply In_nth_error in Hc'.
    destruct Hc' as (i & Hi).
    assert (Hlt : i < nrows df).
    { rewrite <- Hlen. apply nth_error_Some. congruence. }
    destruct (target_on_entry_row Hwf Hlt) as (c & Hc & _).
    destruct (image_row Hwf Himg Hlt) as (img & Him).
    specialize (Hrows i c img Hc Him).
    destruct (is_missing c) eqn:Ec.
    - destruct Hrows as (v & Hv & Hl). rewrite Hl in Hi.
      injection Hi as <-. now rewrite (call_make_latent_path_not_missing _ Hv).
    - rewrite Hrows in Hi. injection Hi as <-. now rewrite Ec. }
  rewrite fill_latent_eq. cbv zeta.
  assert (Ht : target_on_entry
                 (mkDataFrame (nrows df)
                    (replace_col latent_path lat' (data (ensure_latent df))))
               = lat') by (unfold target_on_entry; now rewrite Hlat).
  rewrite Himg', Ht, select_none by exact Hnone. cbn [apply].
  rewrite assign_none by exact Hnone.
  assert (He : ensure_latent
                 (mkDataFrame (nrows df)
                    (replace_col latent_path lat' (data (ensure_latent df))))
               = mkDataFrame (nrows df)
                   (replace_col latent_path lat' (data (ensure_latent df)))).
  { unfold ensure_latent at 1. unfold columns. rewrite contains_lookup.
    unfold column in Hlat. now rewrite Hlat. }
  rewrite He. cbn [nrows data]. rewrite replace_col_id; [reflexivity|].
  exact Hlat.
Qed.

(* ===================================================================== *)
(** ** The path transformer: the properties of the specification *)
(* ===================================================================== *)

(** C1. For a string [p ++ m] whose end [m] is a recognized marker
    ([".nii"] or [".nii.gz"], in any letter case), [make_latent_path]
    returns [p ++ "_latent.npz"]: the trailing marker alone is replaced,
    and [p] is kept as it is, whatever it contains. *)
Theorem make_latent_path_swaps_trailing_marker (p m : pystr) :
  is_marker m = true ->
  ends_with_marker (p ++ m) = true
  /\ make_latent_path (p ++ m) = Ok (p ++ latent_suffix).
Proof.
  intros Hm. split.
  - apply ends_with_marker_iff. now exists p, m.
  - pose proof (@make_latent_path_marker p m []
                  (is_marker_re_marker _ Hm) eq_refl) as H.
    now rewrite !app_nil_r in H.
Qed.

Lemma make_latent_path_swaps_trailing_marker_witness :
  is_marker (str ".NII.gz") = true
  /\ ends_with_marker (str "scan.nii.v2" ++ str ".NII.gz") = true
  /\ make_latent_path (str "scan.nii.v2" ++ str ".NII.gz")
     = Ok (str "scan.nii.v2" ++ latent_suffix).
Proof.
  split; [reflexivity|].
  apply (@make_latent_path_swaps_trailing_marker (str "scan.nii.v2")
           (str ".NII.gz")).
  reflexivity.
Defined.

(** C2. The string ["a.nii\n"] does not end with a recognized marker, and
    yet [make_latent_path] returns a value for it instead of raising
    [ValueError]. *)
Theorem make_latent_path_accepts_final_newline :
  ends_with_marker (str "a.nii" ++ [LF]) = false
  /\ make_latent_path (str "a.nii" ++ [LF])
     = Ok (str "a_latent.npz" ++ [LF]).
Proof. split; reflexivity. Qed.

(** The pattern also takes the dotted capital I (U+0130) and the dotless
    i (U+0131) for its [i]: Unicode case-insensitive matching. *)
Example make_latent_path_dotless_i :
  make_latent_path (str "a.n" ++ [305%N; 304%N]) = Ok (str "a_latent.npz").
Proof. reflexivity. Qed.

(** C9. For a string [s] that ends with a recognized marker,
    [make_latent_path] on [s] followed by a line feed does not raise: it
    returns the substituted form of [s], followed by the line feed.  The
    marker that is replaced is not at the end of the argument. *)
Theorem make_latent_path_before_final_newline (s : pystr) :
  ends_with_marker s = true ->
  exists v,
    suffix_substituted s v
    /\ make_latent_path (s ++ [LF]) = Ok (v ++ [LF])
    /\ ends_with_marker (s ++ [LF]) = false.
Proof.
  intros H. apply ends_with_marker_iff in H. destruct H as (p & m & -> & Hm).
  exists (p ++ latent_suffix). split; [now exists p, m|]. split.
  - rewrite <- !app_assoc.
    apply make_latent_path_marker;
      [now apply is_marker_re_marker | reflexivity].
  - destruct (ends_with_marker ((p ++ m) ++ [LF])) eqn:E; [|reflexivity].
    apply ends_with_marker_iff in E. destruct E as (p' & m' & Hs & Hm').
    exfalso. clear Hm.
    assert (Hlast : exists q, m' = q ++ [LF]).
    { destruct (exists_last (l:=m')) as (q & x & ->).
      - intros ->. discriminate Hm'.
      - rewrite app_assoc in Hs. apply app_inj_tail in Hs.
        destruct Hs as [_ <-]. now exists q. }
    destruct Hlast as (q & ->).
    unfold is_marker in Hm'. rewrite map_app in Hm'. cbn [map] in Hm'.
    apply orb_prop in Hm'.
    destruct Hm' as [Hm'|Hm']; apply pystr_eqb_eq in Hm'.
    + change (str ".nii") with (str ".ni" ++ [105%N]) in Hm'.
      apply app_inj_tail in Hm'. destruct Hm' as [_ Hm']. discriminate Hm'.
    + change (str ".nii.gz") with (str ".nii.g" ++ [122%N]) in Hm'.
      apply app_inj_tail in Hm'. destruct Hm' as [_ Hm']. discriminate Hm'.
Qed.

Lemma make_latent_path_before_final_newline_witness :
  ends_with_marker (str "b.nii.gz") = true
  /\ exists v,
       suffix_substituted (str "b.nii.gz") v
       /\ make_latent_path (str "b.nii.gz" ++ [LF]) = Ok (v ++ [LF])
       /\ ends_with_marker (str "b.nii.gz" ++ [LF]) = false.
Proof.
  split; [reflexivity|].
  apply (@make_latent_path_before_final_newline (str "b.nii.gz")).
  reflexivity.
Defined.

(* ===================================================================== *)
(** ** The column filler: the properties of the specification *)
(* ===================================================================== *)

(** C3. On a frame whose source values all end with a recognized marker,
    with or without a target column on entry, [fill_latent] returns; the
    target column then exists, with one value per row, and in every row
    it holds a non-empty string that is either the value the row had on
    entry or the suffix-substituted form of the row's source value. *)
Theorem fill_latent_fills_every_row (df : DataFrame) :
  wf df -> all_images_marked df = true ->
  exists df' lat',
    fill_latent df = (Ok tt, df')
    /\ nrows df' = nrows df
    /\ column latent_path df' = Some lat'
    /\ length lat' = nrows df'
    /\ forall i, i < nrows df' ->
         exists img v,
           cell_at image_path df i = Some (Str img)
           /\ nth_error lat' i = Some (Str v)
           /\ v <> []
           /\ (cell_at latent_path df i = Some (Str v)
               \/ suffix_substituted img v).
Proof.
  intros Hwf Hall.
  destruct (fill_latent_Ok_of_markers _ Hall) as (df' & Hfill).
  destruct (fill_latent_Ok_rows Hwf Hfill)
    as (images & lat' & Himg & -> & Hlen & Hrows).
  exists (mkDataFrame (nrows df)
            (replace_col latent_path lat' (data (ensure_latent df)))), lat'.
  split; [exact Hfill|]. split; [reflexivity|].
  split; [apply column_latent_replaced|]. split; [exact Hlen|].
  cbn [nrows]. intros i Hi.
  destruct (target_on_entry_row Hwf Hi) as (c & Hc & _ & Hkeep).
  destruct (image_row Hwf Himg Hi) as (img & Him).
  specialize (Hrows i c img Hc Him).
  unfold all_images_marked in Hall. rewrite Himg in Hall.
  rewrite forallb_forall in Hall.
  specialize (Hall img (nth_error_In _ _ Him)).
  destruct img as [| |s]; try discriminate. cbn in Hall.
  destruct (make_latent_path_ends_with_marker _ Hall) as (r & Hr & Hsub).
  unfold cell_at at 1. rewrite Himg, Him.
  destruct (is_missing c) eqn:Ec.
  - destruct Hrows as (v & Hv & Hl). cbn in Hv. rewrite Hr in Hv.
    injection Hv as <-. exists s, r. repeat split; auto.
    destruct Hsub as (p & m & _ & _ & ->). intros Hnil.
    apply app_eq_nil in Hnil. destruct Hnil as [_ Hnil]. discriminate Hnil.
  - specialize (Hkeep eq_refl). destruct c as [| |v]; try discriminate.
    exists s, v. repeat split; auto.
    intros ->. discriminate Ec.
Qed.

Lemma fill_latent_fills_every_row_witness :
  wf manifest_without_target
  /\ all_images_marked manifest_without_target = true
  /\ exists df' lat',
       fill_latent manifest_without_target = (Ok tt, df')
       /\ nrows df' = nrows manifest_without_target
       /\ column latent_path df' = Some lat'
       /\ length lat' = nrows df'
       /\ forall i, i < nrows df' ->
            exists img v,
              cell_at image_path manifest_without_target i = Some (Str img)
              /\ nth_error lat' i = Some (Str v)
              /\ v <> []
              /\ (cell_at latent_path manifest_without_target i = Some (Str v)
                  \/ suffix_substituted img v).
Proof.
  split; [split; reflexivity|]. split; [reflexivity|].
  apply (@fill_latent_fills_every_row manifest_without_target);
    [split; reflexivity | reflexivity].
Defined.

(** C5. [fill_latent] touches the target column only: whether it returns
    or raises, every other column is as it was, and so is every target
    value that was neither unset nor blank, whatever the source value of
    its row. *)
Theorem fill_latent_frame (df df' : DataFrame) (r : result unit) :
  wf df -> fill_latent df = (r, df') ->
  nrows df' = nrows df
  /\ (forall name, name <> latent_path -> column name df' = column name df)
  /\ (forall i, unset_or_blank (cell_at latent_path df i) = false ->
                cell_at latent_path df' i = cell_at latent_path df i).
Proof.
  intros Hwf Hfill.
  assert (Hentry : forall i, unset_or_blank (cell_at latent_path df i) = false ->
             exists c, i < nrows df
                       /\ nth_error (target_on_entry df) i = Some c
                       /\ cell_at latent_path df i = Some c
                       /\ is_missing c = false).
  { intros i Hi. unfold cell_at, target_on_entry in *.
    destruct (column latent_path df) as [l|] eqn:El; [|discriminate].
    destruct (nth_error l i) as [c|] eqn:Ec; [|discriminate].
    exists c. repeat split; auto.
    - rewrite <- (wf_column_length _ Hwf El). apply nth_error_Some. congruence.
    - now rewrite is_missing_unset_or_blank. }
  destruct r as [[]|e].
  - destruct (fill_latent_Ok_rows Hwf Hfill)
      as (images & lat' & Himg & -> & Hlen & Hrows).
    split; [reflexivity|]. split.
    + intros name Hne. now apply column_other_replaced.
    + intros i Hi. destruct (Hentry i Hi) as (c & Hlt & Hc & -> & Hmiss).
      destruct (image_row Hwf Himg Hlt) as (img & Him).
      specialize (Hrows i c img Hc Him). rewrite Hmiss in Hrows.
      unfold cell_at. now rewrite column_latent_replaced.
  - rewrite fill_latent_eq in Hfill. cbv zeta in Hfill.
    assert (df' = ensure_latent df) as ->.
    { destruct (column image_path df); [|congruence].
      destruct (apply call_make_latent_path _); [discriminate | congruence]. }
    split; [apply nrows_ensure|]. split.
    + intros name Hne. now apply column_other_ensure.
    + intros i Hi. destruct (Hentry i Hi) as (c & Hlt & Hc & -> & Hmiss).
      unfold cell_at. now rewrite column_latent_ensure.
Qed.

Lemma fill_latent_frame_witness :
  wf manifest
  /\ (exists df', fill_latent manifest = (Ok tt, df')
        /\ nrows df' = nrows manifest
        /\ (forall name, name <> latent_path ->
                         column name df' = column name manifest)
        /\ (forall i, unset_or_blank (cell_at latent_path manifest i) = false ->
                      cell_at latent_path df' i
                      = cell_at latent_path manifest i)).
Proof.
  split; [split; reflexivity|].
  exists (snd (fill_latent manifest)). split; [reflexivity|].
  apply (@fill_latent_frame manifest (snd (fill_latent manifest)) (Ok tt));
    [split; reflexivity | reflexivity].
Defined.

(** C6. The rows [fill_latent] takes as missing are those whose target
    value is unset or is the empty string once trimmed, and no others:
    after a run that returns, such a row holds what the transformer gives
    for its source value, and any other row holds what it held.  A target
    made of white space only is among the missing ones. *)
Theorem fill_latent_missing_set (df df' : DataFrame) :
  wf df -> fill_latent df = (Ok tt, df') ->
  (forall c, is_missing c = unset_or_blank (Some c))
  /\ (forall s, forallb Unicode.isspace s = true ->
                unset_or_blank (Some (Str s)) = true)
  /\ forall i, i < nrows df ->
       if unset_or_blank (cell_at latent_path df i)
       then exists img v,
              cell_at image_path df i = Some (Str img)
              /\ make_latent_path img = Ok v
              /\ cell_at latent_path df' i = Some (Str v)
       else cell_at latent_path df' i = cell_at latent_path df i.
Proof.
  intros Hwf Hfill. split; [exact is_missing_unset_or_blank|]. split.
  { intros s Hs. cbn. apply pystr_eqb_eq. now apply strip_nil_iff. }
  destruct (fill_latent_Ok_rows Hwf Hfill)
    as (images & lat' & Himg & -> & Hlen & Hrows).
  intros i Hi.
  destruct (target_on_entry_row Hwf Hi) as (c & Hc & Hu & Hkeep).
  destruct (image_row Hwf Himg Hi) as (img & Him).
  specialize (Hrows i c img Hc Him). rewrite Hu.
  assert (Hcell : cell_at latent_path
                    (mkDataFrame (nrows df)
                       (replace_col latent_path lat' (data (ensure_latent df))))
                    i = nth_error lat' i)
    by (unfold cell_at; now rewrite column_latent_replaced).
  rewrite !Hcell.
  destruct (is_missing c).
  - destruct Hrows as (v & Hv & Hl).
    apply call_make_latent_path_Ok in Hv. destruct Hv as (s & r & -> & -> & Hr).
    exists s, r. unfold cell_at. now rewrite Himg, Him.
  - rewrite Hkeep by reflexivity. exact Hrows.
Qed.

Lemma fill_latent_missing_set_witness :
  wf manifest
  /\ exists df',
       fill_latent manifest = (Ok tt, df')
       /\ (forall c, is_missing c = unset_or_blank (Some c))
       /\ (forall s, forallb Unicode.isspace s = true ->
                     unset_or_blank (Some (Str s)) = true)
       /\ forall i, i < nrows manifest ->
            if unset_or_blank (cell_at latent_path manifest i)
            then exists img v,
                   cell_at image_path manifest i = Some (Str img)
                   /\ make_latent_path img = Ok v
                   /\ cell_at latent_path df' i = Some (Str v)
            else cell_at latent_path df' i = cell_at latent_path manifest i.
Proof.
  split; [split; reflexivity|].
  exists (snd (fill_latent manifest)). split; [reflexivity|].
  apply (@fill_latent_missing_set manifest (snd (fill_latent manifest)));
    [split; reflexivity | reflexivity].
Defined.

(** The white-space target of the third row of [manifest] is overwritten,
    the filled target of the second row is kept. *)
Example fill_latent_manifest :
  column latent_path (snd (fill_latent manifest))
  = Some [Str (str "a_latent.npz"); Str (str "elsewhere.npz");
          Str (str "c.v2_latent.npz"); Str (str "d_latent.npz")].
Proof. reflexivity. Qed.

(** C7. On a frame whose source values all end with a recognized marker,
    a second [fill_latent] returns and gives the frame the first one
    gave. *)
Theorem fill_latent_idempotent (df : DataFrame) :
  wf df -> all_images_marked df = true ->
  exists df',
    fill_latent df = (Ok tt, df') /\ fill_latent df' = (Ok tt, df').
Proof.
  intros Hwf Hall.
  destruct (fill_latent_Ok_of_markers _ Hall) as (df' & Hfill).
  exists df'. split; [exact Hfill|]. exact (fill_latent_twice Hwf Hfill).
Qed.

Lemma fill_latent_idempotent_witness :
  wf manifest
  /\ all_images_marked manifest = true
  /\ exists df',
       fill_latent manifest = (Ok tt, df')
       /\ fill_latent df' = (Ok tt, df').
Proof.
  split; [split; reflexivity|]. split; [reflexivity|].
  apply (@fill_latent_idempotent manifest);
    [split; reflexivity | reflexivity].
Defined.

(** C10. When the transformer fails on a row of the missing-set,
    [fill_latent] raises before it assigns any target value, but not
    before it has made the target column: a frame that had the column is
    left as it was, and a frame that had none is left with a new last
    column, unset in every row, so it is not the frame given. *)
Theorem fill_latent_failure_keeps_fresh_column
        (df : DataFrame) (i : nat) (img : cell) (e0 : exn) :
  wf df -> i < nrows df ->
  unset_or_blank (cell_at latent_path df i) = true ->
  cell_at image_path df i = Some img ->
  call_make_latent_path img = Raise e0 ->
  exists e df',
    fill_latent df = (Raise e, df')
    /\ (column latent_path df <> None -> df' = df)
    /\ (column latent_path df = None ->
        df' = mkDataFrame (nrows df)
                (data df ++ [(latent_path, repeat NA (nrows df))])
        /\ column latent_path df' = Some (repeat NA (nrows df))
        /\ df' <> df).
Proof.
  intros Hwf Hi Hmiss Himg Hcall.
  destruct (fill_latent_raises Hwf Hi Hmiss Himg Hcall) as (e & He).
  exists e, (ensure_latent df). split; [exact He|].
  pose proof (column_latent_ensure df) as Hlat.
  unfold target_on_entry in Hlat. unfold ensure_latent in *.
  unfold columns in *. rewrite contains_lookup in *. unfold column in *.
  destruct (lookup_col latent_path (data df)) as [l|]; split;
    try congruence.
  intros _. split; [reflexivity|]. split; [exact Hlat|].
  intros Heq. apply (f_equal (fun d => length (data d))) in Heq.
  cbn [data] in Heq. rewrite length_app in Heq. cbn in Heq. lia.
Qed.

Lemma fill_latent_failure_keeps_fresh_column_witness :
  wf manifest_bad_source
  /\ 1 < nrows manifest_bad_source
  /\ unset_or_blank (cell_at latent_path manifest_bad_source 1) = true
  /\ cell_at image_path manifest_bad_source 1 = Some (Str (str "b.txt"))
  /\ call_make_latent_path (Str (str "b.txt"))
     = Raise (ValueError (str "b.txt"))
  /\ exists e df',
       fill_latent manifest_bad_source = (Raise e, df')
       /\ (column latent_path manifest_bad_source <> None ->
           df' = manifest_bad_source)
       /\ (column latent_path manifest_bad_source = None ->
           df' = mkDataFrame (nrows manifest_bad_source)
                   (data manifest_bad_source
                    ++ [(latent_path, repeat NA (nrows manifest_bad_source))])
           /\ column latent_path df'
              = Some (repeat NA (nrows manifest_bad_source))
           /\ df' <> manifest_bad_source).
Proof.
  split; [split; reflexivity|]. split; [cbn; lia|].
  split; [reflexivity|]. split; [reflexivity|]. split; [reflexivity|].
  apply (@fill_latent_failure_keeps_fresh_column manifest_bad_source 1
           (Str (str "b.txt")) (ValueError (str "b.txt")));
    [split; reflexivity | cbn; lia | reflexivity | reflexivity | reflexivity].
Defined.

(* ===================================================================== *)
(** ** The driver: the properties of the specification *)
(* ===================================================================== *)

Section MainProperties.

Variable csv : Type.
Variable read_csv : csv -> result DataFrame.
Variable to_csv : DataFrame -> csv.
Variable Path : pystr -> pystr.
Variable traceback : exn -> pystr.

(** C4. When the transformer fails on a row of the missing-set,
    [fill_latent] raises and no target value is assigned: the target
    column is the one found on entry, or the fresh unset one.  [main],
    run on a file that holds this frame, ends with the same exception:
    the exit status is 1, no file is written and nothing is printed on
    the standard output. *)
Theorem fill_latent_failure_aborts_run
        (df : DataFrame) (i : nat) (img : cell) (e0 : exn) :
  wf df -> i < nrows df ->
  unset_or_blank (cell_at latent_path df i) = true ->
  cell_at image_path df i = Some img ->
  call_make_latent_path img = Raise e0 ->
  exists e,
    fst (fill_latent df) = Raise e
    /\ column latent_path (snd (fill_latent df)) = Some (target_on_entry df)
    /\ forall args (w : world csv) text,
         files w (Path (inp args)) = Some text ->
         read_csv text = Ok df ->
         main read_csv to_csv Path args w = (Raise e, w)
         /\ fst (run_script read_csv to_csv Path traceback args w) = 1
         /\ files (snd (run_script read_csv to_csv Path traceback args w))
            = files w
         /\ stdout (snd (run_script read_csv to_csv Path traceback args w))
            = stdout w.
Proof.
  intros Hwf Hi Hmiss Himg Hcall.
  destruct (fill_latent_raises Hwf Hi Hmiss Himg Hcall) as (e & He).
  exists e. rewrite He. cbn [fst snd].
  split; [reflexivity|]. split; [apply column_latent_ensure|].
  intros args w text Hfile Hread.
  assert (Hmain : main read_csv to_csv Path args w = (Raise e, w)).
  { unfold main. rewrite Hfile, Hread.
    unfold columns. rewrite contains_lookup. unfold cell_at, column in Himg.
    destruct (lookup_col image_path (data df)); [|discriminate].
    cbn [negb]. now rewrite He. }
  split; [exact Hmain|]. unfold run_script. rewrite Hmain.
  destruct e; auto.
Qed.

(** C8. [main] on a file whose frame has no source column ends with
    [sys.exit] and its message: the exit status is 1, the message goes to
    the standard error, no file is written and nothing is printed on the
    standard output.  On a frame with the source column, a run of [main]
    that returns has written the filled frame to the destination, has
    changed no other file and has printed one line, which names the
    destination; the destination is the [--out] path when one is given
    and is not empty, and the input path otherwise.  Such a run does
    return when [fill_latent] does, the file can be written and the line
    can be printed. *)
Theorem main_exit_behaviour (args : Namespace) (w : world csv) (text : csv)
        (df : DataFrame) :
  files w (Path (inp args)) = Some text ->
  read_csv text = Ok df ->
  exists dest line,
    (out args = None -> dest = Path (inp args))
    /\ (out args = Some [] -> dest = Path (inp args))
    /\ (forall c o, out args = Some (c :: o) -> dest = Path (c :: o))
    /\ line = str "Latent paths written " ++ [8594%N] ++ str " " ++ dest
    /\ (column image_path df = None ->
        main read_csv to_csv Path args w
        = (Raise (SystemExit (str "CSV must contain an 'image_path' column.")),
           w)
        /\ fst (run_script read_csv to_csv Path traceback args w) = 1
        /\ stderr (snd (run_script read_csv to_csv Path traceback args w))
           = stderr w ++ [str "CSV must contain an 'image_path' column."]
        /\ stdout (snd (run_script read_csv to_csv Path traceback args w))
           = stdout w
        /\ files (snd (run_script read_csv to_csv Path traceback args w))
           = files w)
    /\ (column image_path df <> None ->
        forall w', main read_csv to_csv Path args w = (Ok tt, w') ->
          fst (run_script read_csv to_csv Path traceback args w) = 0
          /\ (exists df', fill_latent df = (Ok tt, df')
                          /\ files w' dest = Some (to_csv df'))
          /\ (forall q, q <> dest -> files w' q = files w q)
          /\ stdout w' = stdout w ++ [line]
          /\ stderr w' = stderr w)
    /\ (column image_path df <> None ->
        forall df', fill_latent df = (Ok tt, df') ->
          on_write w dest (to_csv df') = Written csv ->
          on_print w line = None ->
          fst (main read_csv to_csv Path args w) = Ok tt).
Proof.
  intros Hfile Hread.
  exists (out_path Path args), (confirmation (out_path Path args)).
  assert (Hcontains : existsb (pystr_eqb image_path) (columns df)
                      = match column image_path df with
                        | Some _ => true
                        | None => false
                        end) by apply contains_lookup.
  split; [intros Hout; unfold out_path; now rewrite Hout|].
  split; [intros Hout; unfold out_path; now rewrite Hout|].
  split; [intros c o Hout; unfold out_path; now rewrite Hout|].
  split; [reflexivity|]. split; [|split].
  - intros Hnone. rewrite Hnone in Hcontains.
    assert (Hmain : main read_csv to_csv Path args w
                    = (Raise (SystemExit missing_column_message), w)).
    { unfold main. now rewrite Hfile, Hread, Hcontains. }
    split; [exact Hmain|]. unfold run_script. rewrite Hmain.
    repeat split.
  - intros Hsome w' Hmain.
    destruct (column image_path df); [|congruence].
    split; [unfold run_script; now rewrite Hmain|].
    unfold main in Hmain. rewrite Hfile, Hread, Hcontains in Hmain.
    cbn [negb] in Hmain.
    destruct (fill_latent df) as [[[]|e] df']; [|discriminate].
    unfold write_csv in Hmain.
    destruct (on_write w (out_path Path args) (to_csv df'));
      try discriminate.
    unfold print_line in Hmain. cbn [on_print with_files] in Hmain.
    destruct (on_print w (confirmation (out_path Path args)));
      [discriminate|].
    injection Hmain as <-. cbn [files stdout stderr with_stdout with_files].
    split; [|split; [|split; reflexivity]].
    + exists df'. split; [reflexivity|]. unfold write_file.
      now rewrite pystr_eqb_refl.
    + intros q Hq. unfold write_file. apply pystr_eqb_neq in Hq.
      now rewrite Hq.
  - intros Hsome df' Hfill Hwrite Hprint.
    destruct (column image_path df); [|congruence].
    unfold main. rewrite Hfile, Hread, Hcontains, Hfill. cbn [negb].
    unfold write_csv. rewrite Hwrite. unfold print_line.
    cbn [on_print with_files]. now rewrite Hprint.
Qed.

End MainProperties.

Lemma fill_latent_failure_aborts_run_witness :
  wf manifest_bad_source_with_target
  /\ 1 < nrows manifest_bad_source_with_target
  /\ unset_or_blank (cell_at latent_path manifest_bad_source_with_target 1)
     = true
  /\ cell_at image_path manifest_bad_source_with_target 1
     = Some (Str (str "b.txt"))
  /\ call_make_latent_path (Str (str "b.txt"))
     = Raise (ValueError (str "b.txt"))
  /\ main sample_read_csv sample_to_csv sample_Path sample_args
       (sample_world manifest_bad_source_with_target)
     = (Raise (ValueError (str "b.txt")),
        sample_world manifest_bad_source_with_target).
Proof.
  split; [split; reflexivity|]. split; [cbn; lia|].
  split; [reflexivity|]. split; [reflexivity|]. split; [reflexivity|].
  destruct (@fill_latent_failure_aborts_run DataFrame sample_read_csv
              sample_to_csv sample_Path sample_traceback
              manifest_bad_source_with_target 1
              (Str (str "b.txt")) (ValueError (str "b.txt")))
    as (e & He & _ & Hmain);
    [split; reflexivity | cbn; lia | reflexivity | reflexivity | reflexivity|].
  injection He as <-.
  exact (proj1 (Hmain sample_args (sample_world manifest_bad_source_with_target)
                  manifest_bad_source_with_target eq_refl eq_refl)).
Defined.

Lemma main_exit_behaviour_witness :
  files (sample_world manifest) (sample_Path (inp sample_args_out))
  = Some manifest
  /\ sample_read_csv manifest = Ok manifest
  /\ exists w',
       main sample_read_csv sample_to_csv sample_Path sample_args_out
         (sample_world manifest) = (Ok tt, w')
       /\ files w' (str "filled.csv")
          = Some (sample_to_csv (snd (fill_latent manifest)))
       /\ files w' (str "manifest.csv") = Some manifest
       /\ stdout w'
          = [str "Latent paths written " ++ [8594%N] ++ str " filled.csv"].
Proof.
  split; [reflexivity|]. split; [reflexivity|].
  destruct (@main_exit_behaviour DataFrame sample_read_csv sample_to_csv
              sample_Path sample_traceback sample_args_out
              (sample_world manifest) manifest manifest eq_refl eq_refl)
    as (dest & line & _ & _ & Hdest & Hline & _ & Hreturns & _).
  specialize (Hdest _ _ eq_refl).
  assert (Hsource : column image_path manifest <> None) by discriminate.
  destruct (Hreturns Hsource _ eq_refl)
    as (_ & (df' & Hfill & Hfile) & Hothers & Hout & _).
  eexists. split; [reflexivity|].
  injection Hfill as <-. subst line dest. split; [exact Hfile|].
  split; [|exact Hout]. apply Hothers. discriminate.
Defined.

(* ===================================================================== *)
(** ** More on the path transformer *)
(* ===================================================================== *)

Ltac eqb_cases :=
  repeat match goal with
  | |- context [(?a =? ?b)%N] => destruct (N.eqb_spec a b)
  end; cbn; try reflexivity; try lia.

Lemma char_match_n (c : N) : Re.char_match true (chr "n") c = is_n c.
Proof.
  unfold Re.char_match, is_n. change (Unicode.tolower (chr "n")) with 110%N.
  change (Unicode.ignorecase_fixes 110) with (@nil N). cbn [existsb].
  destruct (tolower_cases c) as [[? E]|[[? E]|[[? E]|[? [? [? E]]]]]];
    rewrite E; eqb_cases.
Qed.

Lemma char_match_g (c : N) : Re.char_match true (chr "g") c = is_g c.
Proof.
  unfold Re.char_match, is_g. change (Unicode.tolower (chr "g")) with 103%N.
  change (Unicode.ignorecase_fixes 103) with (@nil N). cbn [existsb].
  destruct (tolower_cases c) as [[? E]|[[? E]|[[? E]|[? [? [? E]]]]]];
    rewrite E; eqb_cases.
Qed.

Lemma char_match_z (c : N) : Re.char_match true (chr "z") c = is_z c.
Proof.
  unfold Re.char_match, is_z. change (Unicode.tolower (chr "z")) with 122%N.
  change (Unicode.ignorecase_fixes 122) with (@nil N). cbn [existsb].
  destruct (tolower_cases c) as [[? E]|[[? E]|[[? E]|[? [? [? E]]]]]];
    rewrite E; eqb_cases.
Qed.

Lemma char_match_i (c : N) : Re.char_match true (chr "i") c = is_i c.
Proof.
  unfold Re.char_match, is_i. change (Unicode.tolower (chr "i")) with 105%N.
  change (Unicode.ignorecase_fixes 105) with [305%N]. cbn [existsb].
  destruct (tolower_cases c) as [[? E]|[[? E]|[[? E]|[? [? [? E]]]]]];
    rewrite E; eqb_cases.
Qed.

Lemma char_match_dot_eq (c : N) : Re.char_match true (chr ".") c = is_dot c.
Proof.
  unfold Re.char_match, is_dot. change (Unicode.tolower (chr ".")) with 46%N.
  change (Unicode.ignorecase_fixes 46) with (@nil N). cbn [existsb].
  destruct (tolower_cases c) as [[? E]|[[? E]|[[? E]|[? [? [? E]]]]]];
    rewrite E; eqb_cases.
Qed.

(** The markers of the pattern are the ones listed. *)
Lemma re_marker_accepted (m : pystr) : re_marker m = accepted_marker m.
Proof.
  unfold re_marker.
  destruct m as [|a [|b [|c [|d [|e [|f [|g [|h m]]]]]]]];
    cbn [matches_lits str map list_ascii_of_string accepted_marker];
    rewrite ?char_match_dot_eq, ?char_match_n, ?char_match_i,
            ?char_match_g, ?char_match_z;
    rewrite ?andb_false_r, ?andb_true_r, ?orb_false_r; try reflexivity;
    cbn [orb]; now rewrite !andb_assoc.
Qed.

Lemma at_end_iff (nl : pystr) : Re.at_end nl = true <-> nl = [] \/ nl = [LF].
Proof.
  split; [apply at_end_cases|]. now intros [-> | ->].
Qed.

(** A text that ends with the new suffix, or with the new suffix and a
    line feed, has no marker where the pattern looks for one. *)
Lemma latent_suffix_not_marker (p p' m' nl nl' : pystr) :
  nl = [] \/ nl = [LF] -> re_marker m' = true -> Re.at_end nl' = true ->
  p ++ latent_suffix ++ nl = p' ++ m' ++ nl' -> False.
Proof.
  intros Hnl Hm' Hnl' H. apply at_end_cases in Hnl'.
  apply re_marker_cases in Hm'.
  apply (f_equal (@rev N)) in H. rewrite !rev_app_distr in H.
  destruct Hm' as [(a & b & c & d & -> & Hm)|(a & b & c & d & e & f & g & -> & Hm)];
    split_lits Hm;
    destruct Hnl as [-> | ->]; destruct Hnl' as [-> | ->];
    cbn in H; try discriminate H;
    injection H; intros; subst; char_contra.
Qed.

(** X1. [make_latent_path] returns exactly on the strings made of a
    stem, a marker of the pattern and nothing more than one final line
    feed, and then gives the stem, ["_latent.npz"] and that line feed; on
    every other string it raises [ValueError] with the string. *)
Theorem make_latent_path_accepts_exactly (s : pystr) :
  (forall v,
     make_latent_path s = Ok v <->
     exists p m nl,
       s = p ++ m ++ nl /\ accepted_marker m = true
       /\ (nl = [] \/ nl = [LF]) /\ v = p ++ latent_suffix ++ nl)
  /\ (make_latent_path s = Raise (ValueError s) <->
      ~ exists p m nl,
          s = p ++ m ++ nl /\ accepted_marker m = true
          /\ (nl = [] \/ nl = [LF])).
Proof.
  split; [intros v|]; split.
  - intros H. apply make_latent_path_Ok_inv in H.
    destruct H as (p & m & nl & Hs & Hm & Hnl & Hv).
    exists p, m, nl. rewrite <- re_marker_accepted, <- at_end_iff. auto.
  - intros (p & m & nl & -> & Hm & Hnl & ->).
    apply make_latent_path_marker;
      [now rewrite re_marker_accepted | now apply at_end_iff].
  - intros H (p & m & nl & -> & Hm & Hnl).
    rewrite make_latent_path_marker in H;
      [discriminate | now rewrite re_marker_accepted | now apply at_end_iff].
  - intros H. apply make_latent_path_raises. intros p m nl Hs Hm Hnl.
    apply H. exists p, m, nl. rewrite <- re_marker_accepted, <- at_end_iff.
    auto.
Qed.

(** X2. What [make_latent_path] returns is never an argument it accepts:
    called on its own result it raises [ValueError]. *)
Theorem make_latent_path_rejects_its_result (s v : pystr) :
  make_latent_path s = Ok v -> make_latent_path v = Raise (ValueError v).
Proof.
  intros H. apply make_latent_path_Ok_inv in H.
  destruct H as (p & m & nl & _ & _ & Hnl & ->).
  apply make_latent_path_raises. intros p' m' nl' Hs Hm' Hnl'.
  apply at_end_cases in Hnl.
  exact (@latent_suffix_not_marker p p' m' nl nl' Hnl Hm' Hnl' Hs).
Qed.

Lemma make_latent_path_rejects_its_result_witness :
  make_latent_path (str "scan.nii.gz") = Ok (str "scan_latent.npz")
  /\ make_latent_path (str "scan_latent.npz")
     = Raise (ValueError (str "scan_latent.npz")).
Proof.
  split; [reflexivity|].
  apply (@make_latent_path_rejects_its_result (str "scan.nii.gz")
           (str "scan_latent.npz")).
  reflexivity.
Defined.

(** X3. Two accepted strings get the same result exactly when they have
    the same stem and the same final line feed: the result does not tell
    which marker, in which letter case, was replaced. *)
Theorem make_latent_path_collisions (p m nl p' m' nl' : pystr) :
  accepted_marker m = true -> nl = [] \/ nl = [LF] ->
  accepted_marker m' = true -> nl' = [] \/ nl' = [LF] ->
  (make_latent_path (p ++ m ++ nl) = make_latent_path (p' ++ m' ++ nl')
   <-> p = p' /\ nl = nl').
Proof.
  intros Hm Hnl Hm' Hnl'. rewrite <- re_marker_accepted in Hm, Hm'.
  rewrite (make_latent_path_marker p _ _ Hm (proj2 (at_end_iff nl) Hnl)).
  rewrite (make_latent_path_marker p' _ _ Hm' (proj2 (at_end_iff nl') Hnl')).
  split; [|now intros [-> ->]].
  intros H0.
  assert (H : p ++ latent_suffix ++ nl = p' ++ latent_suffix ++ nl')
    by congruence.
  clear H0.
  assert (Hsame : nl = nl').
  { destruct Hnl as [-> | ->]; destruct Hnl' as [-> | ->]; try reflexivity;
      apply (f_equal (@rev N)) in H; rewrite !rev_app_distr in H;
      cbn in H; discriminate H. }
  subst nl'. rewrite !app_assoc in H. apply app_inv_tail in H.
  apply app_inv_tail in H. auto.
Qed.

Lemma make_latent_path_collisions_witness :
  accepted_marker (str ".nii") = true
  /\ accepted_marker (str ".NII.gz") = true
  /\ (make_latent_path (str "a" ++ str ".nii" ++ [])
      = make_latent_path (str "a" ++ str ".NII.gz" ++ [])
      <-> str "a" = str "a" /\ @nil N = []).
Proof.
  split; [reflexivity|]. split; [reflexivity|].
  apply (@make_latent_path_collisions (str "a") (str ".nii") []
           (str "a") (str ".NII.gz") []);
    [reflexivity | now left | reflexivity | now left].
Defined.

(* ===================================================================== *)
(** ** More on the column filler *)
(* ===================================================================== *)

Lemma columns_replace_col (name : pystr) (v : list cell)
      (cols : list (pystr * list cell)) :
  map fst (replace_col name v cols) = map fst cols.
Proof.
  induction cols as [|[n w] cols IH]; [reflexivity|]. cbn.
  destruct (pystr_eqb name n); cbn; [reflexivity | now rewrite IH].
Qed.

Lemma lengths_replace_col (name : pystr) (v : list cell) (n : nat)
      (cols : list (pystr * list cell)) :
  length v = n ->
  forallb (fun c => length (snd c) =? n) cols = true ->
  forallb (fun c => length (snd c) =? n) (replace_col name v cols) = true.
Proof.
  intros Hv. induction cols as [|[k w] cols IH]; [reflexivity|]. cbn.
  intros H. apply andb_prop in H. destruct H as [Hw Hcols].
  destruct (pystr_eqb name k); cbn.
  - now rewrite Hv, Nat.eqb_refl.
  - now rewrite Hw, IH.
Qed.

Lemma pystr_eqb_sym (a b : pystr) : pystr_eqb a b = pystr_eqb b a.
Proof.
  destruct (pystr_eqb b a) eqn:E.
  - apply pystr_eqb_eq in E. subst. apply pystr_eqb_refl.
  - apply pystr_eqb_neq in E. apply pystr_eqb_neq. congruence.
Qed.

Lemma distinct_snoc (names : list pystr) (x : pystr) :
  distinct names = true -> existsb (pystr_eqb x) names = false ->
  distinct (names ++ [x]) = true.
Proof.
  induction names as [|n names IH]; [reflexivity|]. cbn.
  intros H Hx. apply andb_prop in H. destruct H as [Hn Hd].
  apply orb_false_iff in Hx. destruct Hx as [Hxn Hx].
  rewrite existsb_app. cbn. rewrite (pystr_eqb_sym n x), Hxn, orb_false_r.
  now rewrite Hn, IH.
Qed.

Lemma wf_ensure (df : DataFrame) : wf df -> wf (ensure_latent df).
Proof.
  intros [Hd Hl]. unfold ensure_latent.
  destruct (existsb (pystr_eqb latent_path) (columns df)) eqn:E;
    [now split|].
  split; unfold columns in *; cbn [data nrows].
  - rewrite map_app. now apply distinct_snoc.
  - rewrite forallb_app, Hl. cbn. now rewrite repeat_length, Nat.eqb_refl.
Qed.

(** The frame [fill_latent] leaves, whatever the outcome: the one with
    the target column, or that one with the column assigned. *)
Lemma fill_latent_frame_left (df : DataFrame) :
  snd (fill_latent df) = ensure_latent df
  \/ exists lat,
       length lat = length (target_on_entry df)
       /\ snd (fill_latent df)
          = mkDataFrame (nrows df)
              (replace_col latent_path lat (data (ensure_latent df))).
Proof.
  rewrite fill_latent_eq. cbv zeta.
  destruct (column image_path df); [|now left].
  destruct (apply call_make_latent_path _) as [new|e]; [|now left].
  right. eexists. split; [|reflexivity]. apply assign_length.
Qed.

(** X4. [fill_latent] keeps a frame well formed, whether it returns or
    raises: the column labels stay distinct and every column, the target
    one included, has one value per row. *)
Theorem fill_latent_keeps_wf (df : DataFrame) :
  wf df -> wf (snd (fill_latent df)).
Proof.
  intros Hwf. pose proof (wf_ensure Hwf) as He.
  destruct (fill_latent_frame_left df) as [-> | (lat & Hlen & ->)];
    [exact He|].
  destruct He as [Hd Hl]. rewrite nrows_ensure in Hl.
  split; unfold columns; cbn [data nrows].
  - now rewrite columns_replace_col.
  - apply lengths_replace_col; [|exact Hl].
    rewrite Hlen. now apply target_on_entry_length.
Qed.

Lemma fill_latent_keeps_wf_witness :
  wf manifest_without_target /\ wf (snd (fill_latent manifest_without_target)).
Proof.
  split; [split; reflexivity|].
  apply (@fill_latent_keeps_wf manifest_without_target). split; reflexivity.
Defined.

(** X5. The column labels after [fill_latent], whatever the outcome, are
    the labels on entry in their order, followed by ["latent_path"] when it
    was not among them: the target column is never moved, and a new one is
    the last column. *)
Theorem fill_latent_column_order (df : DataFrame) :
  columns (snd (fill_latent df))
  = if existsb (pystr_eqb latent_path) (columns df)
    then columns df
    else columns df ++ [latent_path].
Proof.
  assert (He : columns (ensure_latent df)
               = if existsb (pystr_eqb latent_path) (columns df)
                 then columns df
                 else columns df ++ [latent_path]).
  { unfold ensure_latent.
    destruct (existsb (pystr_eqb latent_path) (columns df)); [reflexivity|].
    unfold columns. cbn [data]. now rewrite map_app. }
  destruct (fill_latent_frame_left df) as [-> | (lat & _ & ->)]; [exact He|].
  unfold columns at 1. cbn [data]. now rewrite columns_replace_col.
Qed.

(** X6. On a frame without the source column [fill_latent] raises
    [KeyError] for ["image_path"], in every case, even when no row is
    missing; by then it has added the target column to a frame that had
    none. *)
Theorem fill_latent_without_source (df : DataFrame) :
  column image_path df = None ->
  exists df',
    fill_latent df = (Raise (KeyError image_path), df')
    /\ (column latent_path df <> None -> df' = df)
    /\ (column latent_path df = None ->
        df' = mkDataFrame (nrows df)
                (data df ++ [(latent_path, repeat NA (nrows df))])).
Proof.
  intros Himg. exists (ensure_latent df). rewrite fill_latent_eq. cbv zeta.
  rewrite Himg. split; [reflexivity|].
  unfold ensure_latent, columns, column. rewrite contains_lookup.
  destruct (lookup_col latent_path (data df)); split; congruence.
Qed.

Lemma fill_latent_without_source_witness :
  column image_path manifest_without_source = None
  /\ exists df',
       fill_latent manifest_without_source
       = (Raise (KeyError image_path), df')
       /\ (column latent_path manifest_without_source <> None ->
           df' = manifest_without_source)
       /\ (column latent_path manifest_without_source = None ->
           df' = mkDataFrame (nrows manifest_without_source)
                   (data manifest_without_source
                    ++ [(latent_path,
                         repeat NA (nrows manifest_without_source))])).
Proof.
  split; [reflexivity|].
  apply (@fill_latent_without_source manifest_without_source). reflexivity.
Defined.

(** [apply] raises the exception of the first selected row on which the
    function fails. *)
Lemma apply_select_first_Raise (f : cell -> result cell) (mask : list bool) :
  forall col pos i c e,
    nth_error mask i = Some true -> nth_error col i = Some c ->
    f c = Raise e ->
    (forall j c', j < i -> nth_error mask j = Some true ->
                  nth_error col j = Some c' -> exists v, f c' = Ok v) ->
    apply f (select mask pos col) = Raise e.
Proof.
  induction mask as [|b mask IH]; intros [|c0 col] pos i c e;
    try (destruct i; discriminate).
  cbn [select]. destruct i as [|i]; cbn [nth_error].
  - intros [= ->] [= ->] He _. cbn. now rewrite He.
  - intros Hm Hc He Hbefore.
    assert (Hrest : apply f (select mask (S pos) col) = Raise e).
    { apply (IH col (S pos) i c e Hm Hc He). intros j c' Hj Hmj Hcj.
      apply (Hbefore (S j) c'); [lia | exact Hmj | exact Hcj]. }
    destruct b; [|exact Hrest].
    destruct (Hbefore 0 c0) as (v0 & Hv0); [lia | reflexivity | reflexivity|].
    cbn. now rewrite Hv0, Hrest.
Qed.

(** The mask of a well-formed frame, row by row, in the words of the
    specification. *)
Lemma mask_row (df : DataFrame) (i : nat) (b : bool) :
  wf df -> nth_error (map is_missing (target_on_entry df)) i = Some b ->
  i < nrows df /\ unset_or_blank (cell_at latent_path df i) = b.
Proof.
  intros Hwf H.
  assert (Hi : i < nrows df).
  { rewrite <- (target_on_entry_length Hwf), <- (length_map is_missing).
    apply nth_error_Some. congruence. }
  split; [exact Hi|].
  destruct (target_on_entry_row Hwf Hi) as (c & Hc & Hu & _).
  rewrite nth_error_map, Hc in H. cbn in H. congruence.
Qed.

(** X7. [fill_latent] returns exactly when the frame has the source
    column and the source value of every missing row is a string that
    [make_latent_path] accepts; the source values of the other rows play
    no part. *)
Theorem fill_latent_returns_iff (df : DataFrame) :
  wf df ->
  ((exists df', fill_latent df = (Ok tt, df'))
   <-> column image_path df <> None
       /\ forall i img,
            i < nrows df ->
            unset_or_blank (cell_at latent_path df i) = true ->
            cell_at image_path df i = Some img ->
            exists s v, img = Str s /\ make_latent_path s = Ok v).
Proof.
  intros Hwf. split.
  - intros (df' & Hfill).
    destruct (fill_latent_Ok_rows Hwf Hfill)
      as (images & lat' & Himg & _ & _ & Hrows).
    split; [congruence|]. intros i img Hi Hmiss Hcell.
    destruct (target_on_entry_row Hwf Hi) as (c & Hc & Hu & _).
    unfold cell_at in Hcell. rewrite Himg in Hcell.
    specialize (Hrows i c img Hc Hcell).
    rewrite <- Hu, Hmiss in Hrows. destruct Hrows as (v & Hv & _).
    apply call_make_latent_path_Ok in Hv.
    destruct Hv as (s & r & -> & _ & Hr). now exists s, r.
  - intros [Hsome Hall]. rewrite fill_latent_eq. cbv zeta.
    destruct (column image_path df) as [images|] eqn:Himg; [|congruence].
    destruct (@apply_select_Ok call_make_latent_path
                (map is_missing (target_on_entry df)) images 0)
      as (new & ->); [|eauto].
    intros i c Hm Hc. destruct (mask_row _ Hwf Hm) as [Hi Hu].
    destruct (Hall i c Hi Hu) as (s & v & -> & Hv).
    + unfold cell_at. now rewrite Himg.
    + exists (Str v). cbn. now rewrite Hv.
Qed.

Lemma fill_latent_returns_iff_witness :
  wf manifest_filled
  /\ exists df', fill_latent manifest_filled = (Ok tt, df').
Proof.
  split; [split; reflexivity|].
  apply (proj2 (@fill_latent_returns_iff manifest_filled
                  (conj eq_refl eq_refl))).
  split; [discriminate|].
  intros [|i] img Hi Hmiss; [discriminate Hmiss | cbn in Hi; lia].
Defined.

(** X8. When the transformer fails on a missing row and on no missing row
    above it, [fill_latent] raises the exception of that row: the rows are
    tried from the top, and an unset source value gives [TypeError]
    rather than [ValueError]. *)
Theorem fill_latent_raises_first_failure
        (df : DataFrame) (i : nat) (img : cell) (e : exn) :
  wf df -> i < nrows df ->
  unset_or_blank (cell_at latent_path df i) = true ->
  cell_at image_path df i = Some img ->
  call_make_latent_path img = Raise e ->
  (forall j img', j < i ->
     unset_or_blank (cell_at latent_path df j) = true ->
     cell_at image_path df j = Some img' ->
     exists v, call_make_latent_path img' = Ok v) ->
  fst (fill_latent df) = Raise e
  /\ (img = NaN \/ img = NA -> e = TypeError)
  /\ (forall s, img = Str s -> e = ValueError s).
Proof.
  intros Hwf Hi Hmiss Himg Hcall Hbefore. split.
  - rewrite fill_latent_eq. cbv zeta. unfold cell_at in Himg, Hbefore.
    destruct (column image_path df) as [images|]; [|discriminate].
    destruct (target_on_entry_row Hwf Hi) as (c & Hc & Hu & _).
    rewrite Hmiss in Hu.
    assert (Hm : nth_error (map is_missing (target_on_entry df)) i = Some true)
      by (rewrite nth_error_map, Hc; cbn; now rewrite <- Hu).
    rewrite (@apply_select_first_Raise call_make_latent_path _ images 0 i img e
               Hm Himg Hcall); [reflexivity|].
    intros j c' Hj Hmj Hcj. destruct (mask_row _ Hwf Hmj) as [_ Huj].
    exact (Hbefore j c' Hj Huj Hcj).
  - split.
    + intros [-> | ->]; cbn in Hcall; congruence.
    + intros s ->. cbn in Hcall.
      destruct (make_latent_path_total s) as [(v & Hv)|Hv];
        rewrite Hv in Hcall; congruence.
Qed.

Lemma fill_latent_raises_first_failure_witness :
  wf manifest_two_failures
  /\ 1 < nrows manifest_two_failures
  /\ unset_or_blank (cell_at latent_path manifest_two_failures 1) = true
  /\ cell_at image_path manifest_two_failures 1 = Some NaN
  /\ call_make_latent_path NaN = Raise TypeError
  /\ fst (fill_latent manifest_two_failures) = Raise TypeError.
Proof.
  split; [split; reflexivity|]. split; [cbn; lia|].
  split; [reflexivity|]. split; [reflexivity|]. split; [reflexivity|].
  apply (@fill_latent_raises_first_failure manifest_two_failures 1 NaN
           TypeError);
    [split; reflexivity | cbn; lia | reflexivity | reflexivity | reflexivity|].
  intros [|j] img' Hj _ Hcell; [|lia].
  injection Hcell as <-. now exists (Str (str "a_latent.npz")).
Defined.

(** X9. On a frame that has both columns and no missing row,
    [fill_latent] returns and leaves the frame exactly as it was,
    whatever the source values are: filled rows are not validated. *)
Theorem fill_latent_nothing_missing (df : DataFrame) :
  wf df ->
  column image_path df <> None -> column latent_path df <> None ->
  (forall i, i < nrows df ->
             unset_or_blank (cell_at latent_path df i) = false) ->
  fill_latent df = (Ok tt, df).
Proof.
  intros Hwf Himg Hlat Hall.
  destruct (column image_path df) as [images|] eqn:Eimg; [|congruence].
  destruct (column latent_path df) as [lat|] eqn:Elat; [|congruence].
  assert (Ht : target_on_entry df = lat)
    by (unfold target_on_entry; now rewrite Elat).
  assert (Hnone : forallb negb (map is_missing lat) = true).
  { apply forallb_forall. intros b Hb. apply In_nth_error in Hb.
    destruct Hb as (i & Hi). rewrite <- Ht in Hi.
    destruct (mask_row _ Hwf Hi) as [Hlt <-]. now rewrite Hall. }
  assert (He : ensure_latent df = df).
  { unfold ensure_latent, columns. rewrite contains_lookup.
    unfold column in Elat. now rewrite Elat. }
  rewrite fill_latent_eq. cbv zeta.
  rewrite Eimg, Ht, He, select_none by exact Hnone. cbn [apply].
  rewrite assign_none by exact Hnone.
  rewrite replace_col_id by exact Elat. now destruct df.
Qed.

Lemma fill_latent_nothing_missing_witness :
  wf manifest_filled
  /\ column image_path manifest_filled <> None
  /\ column latent_path manifest_filled <> None
  /\ fill_latent manifest_filled = (Ok tt, manifest_filled).
Proof.
  split; [split; reflexivity|]. split; [discriminate|]. split; [discriminate|].
  apply (@fill_latent_nothing_missing manifest_filled);
    [split; reflexivity | discriminate | discriminate |].
  intros [|i] Hi; [reflexivity | cbn in Hi; lia].
Defined.

(** X10. After any run of [fill_latent] that returns, no row is missing:
    every target value is a string that is not blank. *)
Theorem fill_latent_leaves_nothing_missing (df df' : DataFrame) :
  wf df -> fill_latent df = (Ok tt, df') ->
  forall i, i < nrows df ->
    exists v, cell_at latent_path df' i = Some (Str v)
              /\ pystr_eqb (strip v) [] = false.
Proof.
  intros Hwf Hfill i Hi.
  destruct (fill_latent_Ok_rows Hwf Hfill)
    as (images & lat' & Himg & -> & _ & Hrows).
  destruct (target_on_entry_row Hwf Hi) as (c & Hc & _).
  destruct (image_row Hwf Himg Hi) as (img & Him).
  specialize (Hrows i c img Hc Him).
  unfold cell_at. rewrite column_latent_replaced.
  destruct (is_missing c) eqn:Ec.
  - destruct Hrows as (x & Hx & ->).
    apply call_make_latent_path_Ok in Hx. destruct Hx as (s & r & _ & -> & Hr).
    exists r. split; [reflexivity|]. exact (make_latent_path_not_blank _ Hr).
  - rewrite Hrows. destruct c as [| |v]; try discriminate Ec.
    exists v. split; [reflexivity | exact Ec].
Qed.

Lemma fill_latent_leaves_nothing_missing_witness :
  wf manifest
  /\ fill_latent manifest = (Ok tt, snd (fill_latent manifest))
  /\ forall i, i < nrows manifest ->
       exists v, cell_at latent_path (snd (fill_latent manifest)) i
                 = Some (Str v)
                 /\ pystr_eqb (strip v) [] = false.
Proof.
  split; [split; reflexivity|]. split; [reflexivity|].
  apply (@fill_latent_leaves_nothing_missing manifest
           (snd (fill_latent manifest)));
    [split; reflexivity | reflexivity].
Defined.

(* ===================================================================== *)
(** ** More on the driver *)
(* ===================================================================== *)

Section MoreMainProperties.

Variable csv : Type.
Variable read_csv : csv -> result DataFrame.
Variable to_csv : DataFrame -> csv.
Variable Path : pystr -> pystr.


(** X12. Run in place a second time, [main] returns again and leaves in
    the file what the first run wrote, provided the first run returned
    and the frame written is read back as it is: the script can be
    repeated on its own output. *)
Theorem main_twice_in_place (args : Namespace) (w : world csv) (text : csv)
        (df df' : DataFrame) :
  out args = None ->
  files w (Path (inp args)) = Some text ->
  read_csv text = Ok df ->
  wf df ->
  fill_latent df = (Ok tt, df') ->
  read_csv (to_csv df') = Ok df' ->
  fst (main read_csv to_csv Path args w) = Ok tt ->
  exists w1 w2,
    main read_csv to_csv Path args w = (Ok tt, w1)
    /\ files w1 (Path (inp args)) = Some (to_csv df')
    /\ main read_csv to_csv Path args w1 = (Ok tt, w2)
    /\ forall q, files w2 q = files w1 q.
Proof.
  intros Hout Hfile Hread Hwf Hfill Hback Hreturns.
  assert (Hdest : out_path Path args = Path (inp args))
    by (unfold out_path; now rewrite Hout).
  assert (Hsrc : forall d, column image_path d <> None ->
                           negb (existsb (pystr_eqb image_path) (columns d))
                           = false).
  { intros d Hd. unfold columns. rewrite contains_lookup. unfold column in Hd.
    now destruct (lookup_col image_path (data d)). }
  destruct (fill_latent_Ok_rows Hwf Hfill) as (images & lat' & Himg & Hdf' & _).
  assert (Himg' : column image_path df' <> None).
  { rewrite Hdf', (@column_other_replaced df lat' (nrows df) _
                     image_latent_distinct). congruence. }
  pose proof (fill_latent_twice Hwf Hfill) as Hfill'.
  unfold main in Hreturns.
  rewrite Hfile, Hread, Hsrc, Hfill, Hdest in Hreturns by congruence.
  unfold write_csv, print_line in Hreturns.
  destruct (on_write w (Path (inp args)) (to_csv df')) eqn:Hwrite;
    try discriminate Hreturns.
  cbn [on_print with_files] in Hreturns.
  destruct (on_print w (confirmation (Path (inp args)))) eqn:Hprint;
    [discriminate Hreturns|].
  eexists. eexists. split; [|split; [|split]].
  - unfold main. rewrite Hfile, Hread, Hsrc, Hfill, Hdest by congruence.
    unfold write_csv, print_line. rewrite Hwrite.
    cbn [on_print with_files]. rewrite Hprint. reflexivity.
  - cbn [files with_stdout with_files]. unfold write_file.
    now rewrite pystr_eqb_refl.
  - unfold main. cbn [files with_stdout with_files]. unfold write_file at 1.
    rewrite pystr_eqb_refl, Hback, Hsrc, Hfill', Hdest by exact Himg'.
    unfold write_csv, print_line.
    cbn [on_write on_print with_stdout with_files]. rewrite Hwrite.
    cbn [on_write on_print with_stdout with_files]. rewrite Hprint.
    reflexivity.
  - intros q. cbn [files with_stdout with_files]. unfold write_file.
    now destruct (pystr_eqb q (Path (inp args))).
Qed.

End MoreMainProperties.

Lemma main_twice_in_place_witness :
  out sample_args = None
  /\ wf manifest
  /\ fst (main sample_read_csv sample_to_csv sample_Path sample_args
            (sample_world manifest)) = Ok tt
  /\ exists w1 w2,
       main sample_read_csv sample_to_csv sample_Path sample_args
         (sample_world manifest) = (Ok tt, w1)
       /\ files w1 (sample_Path (inp sample_args))
          = Some (sample_to_csv (snd (fill_latent manifest)))
       /\ main sample_read_csv sample_to_csv sample_Path sample_args w1
          = (Ok tt, w2)
       /\ forall q, files w2 q = files w1 q.
Proof.
  split; [reflexivity|]. split; [split; reflexivity|]. split; [reflexivity|].
  apply (@main_twice_in_place DataFrame sample_read_csv sample_to_csv
           sample_Path sample_args (sample_world manifest) manifest manifest
           (snd (fill_latent manifest)));
    [reflexivity | reflexivity | reflexivity | split; reflexivity
     | reflexivity | reflexivity | reflexivity].
Defined.


(** Where no file can be opened for writing, [main] ends with the error
    of the write: status 1, nothing written and nothing printed. *)
Example main_read_only_destination :
  main sample_read_csv sample_to_csv sample_Path sample_args_out
    (sample_world_read_only manifest)
  = (Raise (OSError (str "filled.csv")), sample_world_read_only manifest).
Proof. reflexivity. Qed.

(** Where the output cannot encode the arrow, [main] ends with the error
    of [print]: by then the file is written, and no line is printed. *)
Example main_print_fails_after_write :
  let run := main sample_read_csv sample_to_csv sample_Path sample_args_out
               (sample_world_ascii manifest) in
  fst run
  = Raise (UnicodeEncodeError
             (str "Latent paths written " ++ [8594%N] ++ str " filled.csv"))
  /\ files (snd run) (str "filled.csv") = Some (snd (fill_latent manifest))
  /\ stdout (snd run) = [].
Proof. repeat split. Qed.
